(** * trivy-java-db: the storage engine and the build command

    A shallow embedding of [pkg/db/sqlite.go], [pkg/db/mysql.go],
    [pkg/db/db.go] and of the [build] function of
    [cmd/trivy-java-db/main.go].

    The Go methods talk to a relational engine through [database/sql].
    Each SQL text of the source is one definition below, acting on the
    rows of the two tables; the Go methods are written in a small state
    monad over the connection, which carries the committed database, the
    open transaction and the failures the engine is going to report. *)

From Stdlib Require Import ZArith String Ascii List Bool Lia.
From Stdlib.Strings Require Import Byte.
From stdpp Require Import base decidable option list strings gmap.

Local Open Scope string_scope.
Local Open Scope list_scope.

(** ** Errors

    Go's [error] values that the code produces or inspects. *)

Inductive error : Type :=
| ErrNoRows                          (* sql.ErrNoRows *)
| ErrTxDone                          (* sql.ErrTxDone *)
| ErrLength                          (* hex.ErrLength *)
| InvalidByteError (c : ascii)       (* hex.InvalidByteError *)
| EngineError (msg : string)         (* an error reported by the SQL engine *)
| PathError (msg : string)           (* an error reported by the file system *)
| ErrorString (msg : string)         (* fmt.Errorf without a cause *)
| Errorf (msg : string) (cause : error). (* xerrors.Errorf("msg: %w", cause) *)

#[global] Instance error_eq_dec : EqDecision error.
Proof. solve_decision. Defined.

(** [errors.Is err target]: [target] occurs on the chain of causes. *)
Fixpoint errors_Is (err target : error) : bool :=
  bool_decide (err = target) ||
  match err with
  | Errorf _ cause => errors_Is cause target
  | _ => false
  end.

(** ** [encoding/hex] *)

#[global] Instance byte_eq_dec : EqDecision byte := Byte.byte_eq_dec.

Module hex.

(** [fromHexChar], the content of [reverseHexTable]. *)
Definition fromHexChar (c : ascii) : option N :=
  let n := N_of_ascii c in
  if (48 <=? n)%N && (n <=? 57)%N then Some (n - 48)%N
  else if (97 <=? n)%N && (n <=? 102)%N then Some (n - 97 + 10)%N
  else if (65 <=? n)%N && (n <=? 70)%N then Some (n - 65 + 10)%N
  else None.

Definition mkbyte (a b : N) : byte :=
  byte_of_ascii (ascii_of_N (N.lor (N.shiftl a 4) b)).

(** [hex.Decode]: two digits per byte; an invalid digit is reported
    before a bad length. *)
Fixpoint Decode (src : list ascii) : list byte * option error :=
  match src with
  | [] => ([], None)
  | [p] =>
      match fromHexChar p with
      | None => ([], Some (InvalidByteError p))
      | Some _ => ([], Some ErrLength)
      end
  | p :: q :: rest =>
      match fromHexChar p with
      | None => ([], Some (InvalidByteError p))
      | Some a =>
          match fromHexChar q with
          | None => ([], Some (InvalidByteError q))
          | Some b =>
              let '(bs, err) := Decode rest in
              (mkbyte a b :: bs, err)
          end
      end
  end.

Definition DecodeString (s : string) : list byte * option error :=
  Decode (list_ascii_of_string s).

Definition hextable : list ascii :=
  list_ascii_of_string "0123456789abcdef".

Definition digit (n : N) : ascii :=
  nth (N.to_nat n) hextable "0"%char.

(** [hex.Encode]: [hextable[v>>4]], [hextable[v&0x0f]]. *)
Fixpoint Encode (src : list byte) : list ascii :=
  match src with
  | [] => []
  | v :: rest =>
      let n := Byte.to_N v in
      digit (N.shiftr n 4) :: digit (N.land n 15) :: Encode rest
  end.

Definition EncodeToString (src : list byte) : string :=
  string_of_list_ascii (Encode src).

End hex.

(** ** [types.Index] *)

(** Modelled from the spec: [types.Index] and [types.ArchiveType] are
    declared in a file of [pkg/types] that is not part of the sources at
    hand.  The five fields are the ones the methods below read and scan;
    [SHA1] is the binary digest, [ArchiveType] a string-backed enum. *)
Record Index : Type := mkIndex {
  GroupID : string;
  ArtifactID : string;
  Version : string;
  SHA1 : list byte;
  ArchiveType : string
}.

#[global] Instance Index_eq_dec : EqDecision Index.
Proof. solve_decision. Defined.

(** [var index types.Index]: the zero value. *)
Definition zeroIndex : Index := mkIndex "" "" "" [] "".

(** ** The relational store *)

(** A row of [artifacts(id INTEGER PRIMARY KEY, group_id, artifact_id)]. *)
Record ArtifactRow : Type := mkArtifactRow {
  a_id : Z;
  a_group_id : string;
  a_artifact_id : string
}.

(** A row of [indices(artifact_id, version, sha1, archive_type)];
    [artifact_id] is what the scalar sub-select of the insert gave,
    [None] being SQL's NULL. *)
Record IndexRow : Type := mkIndexRow {
  i_artifact_id : option Z;
  i_version : string;
  i_sha1 : list byte;
  i_archive_type : string
}.

#[global] Instance ArtifactRow_eq_dec : EqDecision ArtifactRow.
Proof. solve_decision. Defined.
#[global] Instance IndexRow_eq_dec : EqDecision IndexRow.
Proof. solve_decision. Defined.

(** What a [CREATE] statement leaves in the catalog. *)
Inductive SchemaObject : Type :=
| TableObj (name : string)
| IndexObj (name : string) (table : string) (unique : bool)
           (columns : list string).

#[global] Instance SchemaObject_eq_dec : EqDecision SchemaObject.
Proof. solve_decision. Defined.

Record Database : Type := mkDatabase {
  catalog : list SchemaObject;
  artifacts : list ArtifactRow;
  indices : list IndexRow
}.

#[global] Instance Database_eq_dec : EqDecision Database.
Proof. solve_decision. Defined.

Definition emptyDatabase : Database := mkDatabase [] [] [].

Definition set_catalog (c : list SchemaObject) (d : Database) : Database :=
  mkDatabase c (artifacts d) (indices d).
Definition set_artifacts (a : list ArtifactRow) (d : Database) : Database :=
  mkDatabase (catalog d) a (indices d).
Definition set_indices (i : list IndexRow) (d : Database) : Database :=
  mkDatabase (catalog d) (artifacts d) i.

(** ** The SQL statements of the source

    One definition per SQL text.  Values compare by equality (SQLite's
    default BINARY collation); the column sizes of the MySQL dialect
    ([varchar(255)], [sha1(255)]) are taken to be large enough for the
    values stored.  The data statements read and write the rows under the
    constraints that [Init] declares; the schema statements read and
    write the catalog. *)

Inductive outcome : Type :=
| Done (d : Database)      (* the statement ran; the database after it *)
| Failed (e : error).      (* the engine refused it; nothing changed *)

Module SQL.

Definition object_name (o : SchemaObject) : string :=
  match o with
  | TableObj n => n
  | IndexObj n _ _ _ => n
  end.

Definition name_taken (n : string) (d : Database) : bool :=
  bool_decide (n ∈ object_name <$> catalog d).

Definition has_table (n : string) (d : Database) : bool :=
  bool_decide (TableObj n ∈ catalog d).

Definition add_objects (os : list SchemaObject) (d : Database) : Database :=
  set_catalog (catalog d ++ os) d.

(** The columns of [artifacts_idx]. *)
Definition artifact_key (r : ArtifactRow) : string * string :=
  (a_artifact_id r, a_group_id r).

(** *** SQLite schema statements (sqlite.go, lines 33-48)

    SQLite keeps tables and indexes in one name space; a [CREATE]
    without [IF NOT EXISTS] fails when the name is taken. *)

Definition sqlite_create_table (n : string) (d : Database) : outcome :=
  if name_taken n d
  then Failed (EngineError ("table " +:+ n +:+ " already exists"))
  else Done (add_objects [TableObj n] d).

Definition sqlite_create_index (n table : string) (unique : bool)
    (columns : list string) (duplicates : bool) (d : Database) : outcome :=
  if name_taken n d
  then Failed (EngineError ("index " +:+ n +:+ " already exists"))
  else if negb (has_table table d)
  then Failed (EngineError ("no such table: main." +:+ table))
  else if unique && duplicates
  then Failed (EngineError ("UNIQUE constraint failed: " +:+ table))
  else Done (add_objects [IndexObj n table unique columns] d).

(** CREATE TABLE artifacts(id INTEGER PRIMARY KEY, group_id TEXT,
    artifact_id TEXT) *)
Definition sqlite_create_artifacts : Database -> outcome :=
  sqlite_create_table "artifacts".

(** CREATE TABLE indices(artifact_id INTEGER, version TEXT, sha1 BLOB,
    archive_type TEXT, foreign key (artifact_id) references
    artifacts(id)) *)
Definition sqlite_create_indices : Database -> outcome :=
  sqlite_create_table "indices".

(** CREATE UNIQUE INDEX artifacts_idx ON artifacts(artifact_id,
    group_id) *)
Definition sqlite_create_artifacts_idx (d : Database) : outcome :=
  sqlite_create_index "artifacts_idx" "artifacts" true
    ["artifact_id"; "group_id"]
    (negb (bool_decide (NoDup (artifact_key <$> artifacts d)))) d.

(** CREATE INDEX indices_artifact_idx ON indices(artifact_id) *)
Definition sqlite_create_indices_artifact_idx (d : Database) : outcome :=
  sqlite_create_index "indices_artifact_idx" "indices" false
    ["artifact_id"] false d.

(** CREATE UNIQUE INDEX indices_sha1_idx ON indices(sha1) *)
Definition sqlite_create_indices_sha1_idx (d : Database) : outcome :=
  sqlite_create_index "indices_sha1_idx" "indices" true ["sha1"]
    (negb (bool_decide (NoDup (i_sha1 <$> indices d)))) d.

(** *** MySQL schema statements (mysql.go, lines 28 and 32)

    [CREATE TABLE IF NOT EXISTS]: when a table of that name exists the
    statement does nothing and succeeds (with a warning), whatever the
    shape of the existing table.  The constraints are part of the
    table definition. *)

Definition mysql_create_table_if_not_exists (n : string)
    (constraints : list SchemaObject) (d : Database) : outcome :=
  if has_table n d then Done d
  else Done (add_objects (TableObj n :: constraints) d).

(** CREATE TABLE IF NOT EXISTS artifacts(id INTEGER AUTO_INCREMENT
    PRIMARY KEY, group_id varchar(255), artifact_id varchar(255),
    CONSTRAINT artifacts_idx UNIQUE (artifact_id, group_id)) *)
Definition mysql_create_artifacts : Database -> outcome :=
  mysql_create_table_if_not_exists "artifacts"
    [IndexObj "artifacts_idx" "artifacts" true ["artifact_id"; "group_id"]].

(** CREATE TABLE IF NOT EXISTS indices(artifact_id INTEGER, version
    varchar(255), sha1 blob, archive_type varchar(255), foreign key
    (artifact_id) references artifacts(id), CONSTRAINT indices_sha1_idx
    UNIQUE (sha1(255)), INDEX indices_artifact_idx(artifact_id)).
    The referenced table has to exist when the table is created. *)
Definition mysql_create_indices (d : Database) : outcome :=
  if has_table "indices" d then Done d
  else if negb (has_table "artifacts" d)
  then Failed (EngineError "Failed to open the referenced table 'artifacts'")
  else mysql_create_table_if_not_exists "indices"
    [IndexObj "indices_sha1_idx" "indices" true ["sha1"];
     IndexObj "indices_artifact_idx" "indices" false ["artifact_id"]] d.

(** *** Inserts *)

(** The id given to a new [artifacts] row: one more than the largest
    id of the table, 1 in an empty table. *)
Definition next_rowid (rows : list ArtifactRow) : Z :=
  match rows with
  | [] => 1
  | r :: rest => 1 + foldr Z.max (a_id r) (a_id <$> rest)
  end.

(** One [(?, ?)] tuple of [INSERT OR IGNORE INTO artifacts(group_id,
    artifact_id) VALUES ...]: a tuple that meets its pair in the table
    is skipped. *)
Definition insert_or_ignore_artifact (d : Database) (v : string * string)
    : Database :=
  let '(g, a) := v in
  if bool_decide ((a, g) ∈ artifact_key <$> artifacts d) then d
  else set_artifacts
         (artifacts d ++ [mkArtifactRow (next_rowid (artifacts d)) g a]) d.

(** INSERT OR IGNORE INTO artifacts(group_id, artifact_id) VALUES
    (?, ?), ..., (?, ?)   (MySQL: INSERT IGNORE INTO ...).  The tuples
    are handled in order, each seeing the rows of the earlier ones. *)
Definition insert_artifacts (values : list (string * string))
    (d : Database) : outcome :=
  Done (foldl insert_or_ignore_artifact d values).

(** (SELECT id FROM artifacts WHERE group_id=? AND artifact_id=?) as a
    scalar: the id of the first such row, NULL when there is none. *)
Definition select_artifact_id (g a : string) (d : Database) : option Z :=
  a_id <$> head (filter (λ r, a_group_id r = g ∧ a_artifact_id r = a)
                        (artifacts d)).

(** [foreign key (artifact_id) references artifacts(id)]; NULL passes. *)
Definition fk_ok (aid : option Z) (d : Database) : bool :=
  match aid with
  | None => true
  | Some id => bool_decide (id ∈ a_id <$> artifacts d)
  end.

Definition new_index_row (x : Index) (d : Database) : IndexRow :=
  mkIndexRow (select_artifact_id (GroupID x) (ArtifactID x) d)
             (Version x) (SHA1 x) (ArchiveType x).

Definition sha1_taken (x : Index) (d : Database) : bool :=
  bool_decide (SHA1 x ∈ i_sha1 <$> indices d).

(** INSERT INTO indices(artifact_id, version, sha1, archive_type)
    VALUES ((SELECT ...), ?, ?, ?) ON CONFLICT(sha1) DO NOTHING
    (sqlite.go, lines 86-93) *)
Definition sqlite_insert_index (x : Index) (d : Database) : outcome :=
  let row := new_index_row x d in
  if sha1_taken x d then Done d
  else if fk_ok (i_artifact_id row) d
  then Done (set_indices (indices d ++ [row]) d)
  else Failed (EngineError "FOREIGN KEY constraint failed").

(** INSERT IGNORE INTO indices(artifact_id, version, sha1,
    archive_type) VALUES ((SELECT ...), ?, ?, ?)
    (mysql.go, lines 61-68): [IGNORE] skips the row on any constraint
    failure. *)
Definition mysql_insert_index (x : Index) (d : Database) : outcome :=
  let row := new_index_row x d in
  if sha1_taken x d then Done d
  else if fk_ok (i_artifact_id row) d
  then Done (set_indices (indices d ++ [row]) d)
  else Done d.

(** *** Queries *)

(** FROM indices i JOIN artifacts a ON a.id = i.artifact_id *)
Definition joined (d : Database) : list (IndexRow * ArtifactRow) :=
  i ← indices d;
  (λ a, (i, a)) <$> filter (λ a, i_artifact_id i = Some (a_id a))
                           (artifacts d).

(** The five selected columns, in the order they are scanned. *)
Definition columns (a : ArtifactRow) (i : IndexRow) : Index :=
  mkIndex (a_group_id a) (a_artifact_id a)
          (i_version i) (i_sha1 i) (i_archive_type i).

(** SELECT a.group_id, a.artifact_id, i.version, i.sha1,
    i.archive_type FROM indices i JOIN artifacts a ON a.id =
    i.artifact_id WHERE i.sha1 = ? *)
Definition select_by_sha1 (sha1b : list byte) (d : Database)
    : list Index :=
  (λ ia, columns ia.2 ia.1) <$>
    filter (λ ia, i_sha1 ia.1 = sha1b) (joined d).

(** ... WHERE a.group_id = ? AND a.artifact_id = ? *)
Definition select_by_group_and_artifact (groupID artifactID : string)
    (d : Database) : list Index :=
  (λ ia, columns ia.2 ia.1) <$>
    filter (λ ia, a_group_id ia.2 = groupID ∧ a_artifact_id ia.2 = artifactID)
           (joined d).

(** The inner select [f_id]: SELECT a.id, a.group_id, a.artifact_id
    FROM indices i JOIN artifacts a on a.id = i.artifact_id WHERE
    a.artifact_id = ? AND i.version = ? AND i.archive_type = ? *)
Definition f_id (artifactID version fileType : string) (d : Database)
    : list ArtifactRow :=
  snd <$> filter (λ ia, a_artifact_id ia.2 = artifactID ∧
                        i_version ia.1 = version ∧
                        i_archive_type ia.1 = fileType)
                 (joined d).

(** SELECT f_id.group_id, f_id.artifact_id, i.version, i.sha1,
    i.archive_type FROM indices i JOIN (...) f_id ON f_id.id =
    i.artifact_id *)
Definition select_by_artifact_and_type (artifactID version fileType : string)
    (d : Database) : list Index :=
  i ← indices d;
  (λ f, columns f i) <$>
    filter (λ f, i_artifact_id i = Some (a_id f))
           (f_id artifactID version fileType d).

End SQL.


(** ** The connection ([*sql.DB], [*sql.Tx])

    [store] is the committed database, [pending] the working copy of the
    open transaction, [faults] what the engine is going to answer to the
    coming calls: [true] for a call that it fails (disk, network, lock),
    [false] or nothing for a call that it serves. *)

Record Conn : Type := mkConn {
  store : Database;
  pending : option Database;
  faults : list bool
}.

Definition M (A : Type) : Type := Conn -> A * Conn.

Definition ret {A : Type} (a : A) : M A := λ c, (a, c).

Definition bind {A B : Type} (m : M A) (k : A -> M B) : M B :=
  λ c, let '(a, c') := m c in k a c'.

Notation "'do' x <- m ;; k" := (bind m (λ x, k))
  (at level 10, x name, m at level 99, k at level 200,
   format "'[v' 'do'  x  <-  m  ;;  '/' k ']'").

(** [defer f()]: [f] runs when the body returns, its result is dropped. *)
Definition defer {A B : Type} (deferred : M B) (body : M A) : M A :=
  do r <- body ;; do u <- deferred ;; ret r.

Definition engine_failure : error := EngineError "engine failure".

Definition next_fault : M bool :=
  λ c, match faults c with
       | [] => (false, c)
       | f :: fs => (f, mkConn (store c) (pending c) fs)
       end.

(** [client.Exec(stmt)] outside a transaction: the statement commits on
    its own. *)
Definition client_Exec (stmt : Database -> outcome) : M (option error) :=
  do f <- next_fault ;;
  if f : bool then ret (Some engine_failure)
  else λ c, match stmt (store c) with
            | Done d => (None, mkConn d (pending c) (faults c))
            | Failed e => (Some e, c)
            end.

(** [client.Begin()] *)
Definition client_Begin : M (option error) :=
  do f <- next_fault ;;
  if f : bool then ret (Some engine_failure)
  else λ c, (None, mkConn (store c) (Some (store c)) (faults c)).

(** [tx.Exec(stmt)]: the statement acts on the transaction's copy. *)
Definition tx_Exec (stmt : Database -> outcome) : M (option error) :=
  do f <- next_fault ;;
  if f : bool then ret (Some engine_failure)
  else λ c, match pending c with
            | None => (Some ErrTxDone, c)
            | Some d =>
                match stmt d with
                | Done d' => (None, mkConn (store c) (Some d') (faults c))
                | Failed e => (Some e, c)
                end
            end.

(** [tx.Commit()]: the copy becomes the committed database; when the
    engine fails the commit the transaction is gone and nothing of it is
    kept. *)
Definition tx_Commit : M (option error) :=
  λ c, match pending c with
       | None => (Some ErrTxDone, c)
       | Some d =>
           let '(f, c') := next_fault c in
           if f : bool then (Some engine_failure, mkConn (store c') None (faults c'))
           else (None, mkConn d None (faults c'))
       end.

(** [tx.Rollback()]: the copy is dropped; [ErrTxDone] after a commit. *)
Definition tx_Rollback : M (option error) :=
  λ c, match pending c with
       | None => (Some ErrTxDone, c)
       | Some _ => (None, mkConn (store c) None (faults c))
       end.

(** [client.Query(q)]: the rows, read from the committed database. *)
Definition client_Query (q : Database -> list Index)
    : M (list Index * option error) :=
  do f <- next_fault ;;
  if f : bool then ret ([], Some engine_failure)
  else λ c, ((q (store c), None), c).

(** [client.QueryRow(q).Scan(&index...)]: the first row is scanned into
    [index]; without a row [index] is left as it is and the error is
    [sql.ErrNoRows]. *)
Definition client_QueryRow_Scan (q : Database -> list Index) (index : Index)
    : M (Index * option error) :=
  do r <- client_Query q ;;
  let '(rows, err) := r in
  match err with
  | Some e => ret (index, Some e)
  | None =>
      match rows with
      | [] => ret (index, Some ErrNoRows)
      | row :: _ => ret (row, None)
      end
  end.

(** [err != nil && !errors.Is(err, sql.ErrNoRows)] *)
Definition real_error (err : option error) : option error :=
  match err with
  | Some e => if errors_Is e ErrNoRows then None else Some e
  | None => None
  end.

(** ** [pkg/db/sqlite.go]

    The receiver [sqlite *Sqlite] is its [client]; [dir] is only read by
    [Dir]. *)

Module Sqlite.

Definition Init : M (option error) :=
  do err <- client_Exec SQL.sqlite_create_artifacts ;;
  match err with
  | Some e => ret (Some (Errorf "unable to create 'artifacts' table" e))
  | None =>
  do err <- client_Exec SQL.sqlite_create_indices ;;
  match err with
  | Some e => ret (Some (Errorf "unable to create 'indices' table" e))
  | None =>
  do err <- client_Exec SQL.sqlite_create_artifacts_idx ;;
  match err with
  | Some e => ret (Some (Errorf "unable to create 'artifacts_idx' index" e))
  | None =>
  do err <- client_Exec SQL.sqlite_create_indices_artifact_idx ;;
  match err with
  | Some e => ret (Some (Errorf "unable to create 'indices_artifact_idx' index" e))
  | None =>
  do err <- client_Exec SQL.sqlite_create_indices_sha1_idx ;;
  match err with
  | Some e => ret (Some (Errorf "unable to create 'indices_sha1_idx' index" e))
  | None => ret None
  end end end end end.

(** [VACUUM] rebuilds the file and leaves catalog and rows as they are. *)
Definition VacuumDB : M (option error) :=
  do err <- client_Exec Done ;;
  match err with
  | Some e => ret (Some (Errorf "vacuum database error" e))
  | None => ret None
  end.

Definition Close : M (option error) := ret None.

Definition insertArtifacts (indexes : list Index) : M (option error) :=
  let values := (λ index, (GroupID index, ArtifactID index)) <$> indexes in
  do err <- tx_Exec (SQL.insert_artifacts values) ;;
  match err with
  | Some e => ret (Some (Errorf "unable to insert to 'artifacts' table" e))
  | None => ret None
  end.

(** The loop [for _, index := range indexes] of [InsertIndexes]. *)
Fixpoint insertEach (indexes : list Index) : M (option error) :=
  match indexes with
  | [] => ret None
  | index :: rest =>
      do err <- tx_Exec (SQL.sqlite_insert_index index) ;;
      match err with
      | Some e => ret (Some (Errorf "unable to insert to 'indices' table" e))
      | None => insertEach rest
      end
  end.

Definition InsertIndexes (indexes : list Index) : M (option error) :=
  if (length indexes =? 0)%nat then ret None
  else
    do err <- client_Begin ;;
    match err with
    | Some e => ret (Some e)
    | None =>
        defer tx_Rollback (
          do err <- insertArtifacts indexes ;;
          match err with
          | Some e => ret (Some (Errorf "insert error" e))
          | None =>
              do err <- insertEach indexes ;;
              match err with
              | Some e => ret (Some e)
              | None => tx_Commit
              end
          end)
    end.

Definition SelectIndexBySha1 (sha1 : string) : M (Index * option error) :=
  let index := zeroIndex in
  let '(sha1b, err) := hex.DecodeString sha1 in
  match err with
  | Some e => ret (index, Some (Errorf "sha1 decode error" e))
  | None =>
      do r <- client_QueryRow_Scan (SQL.select_by_sha1 sha1b) index ;;
      let '(index, err) := r in
      match real_error err with
      | Some e => ret (index, Some (Errorf "select index error" e))
      | None => ret (index, None)
      end
  end.

Definition SelectIndexByArtifactIDAndGroupID (artifactID groupID : string)
    : M (Index * option error) :=
  let index := zeroIndex in
  do r <- client_QueryRow_Scan
         (SQL.select_by_group_and_artifact groupID artifactID) index ;;
  let '(index, err) := r in
  match real_error err with
  | Some e => ret (index, Some (Errorf "select index error" e))
  | None => ret (index, None)
  end.

Definition SelectIndexesByArtifactIDAndFileType
    (artifactID version fileType : string) : M (list Index * option error) :=
  do r <- client_Query
         (SQL.select_by_artifact_and_type artifactID version fileType) ;;
  let '(rows, err) := r in
  match real_error err with
  | Some e => ret ([], Some (Errorf "select indexes error" e))
  | None =>
      (* for rows.Next() { rows.Scan(...); indexes = append(indexes, index) } *)
      ret (foldl (λ indexes index, indexes ++ [index]) [] rows, None)
  end.

End Sqlite.


(** ** [pkg/db/mysql.go] *)

Module Mysql.

Definition Init : M (option error) :=
  do err <- client_Exec SQL.mysql_create_artifacts ;;
  match err with
  | Some e => ret (Some (Errorf "failed to create 'artifacts' table" e))
  | None =>
  do err <- client_Exec SQL.mysql_create_indices ;;
  match err with
  | Some e => ret (Some (Errorf "failed to create 'artifacts' table" e))
  | None => ret None
  end end.

Definition Close : M (option error) := ret None.

Definition VacuumDB : M (option error) := ret None.

Definition insertArtifacts (indexes : list Index) : M (option error) :=
  let values := (λ index, (GroupID index, ArtifactID index)) <$> indexes in
  do err <- tx_Exec (SQL.insert_artifacts values) ;;
  match err with
  | Some e => ret (Some (Errorf "unable to insert to 'artifacts' table" e))
  | None => ret None
  end.

Fixpoint insertEach (indexes : list Index) : M (option error) :=
  match indexes with
  | [] => ret None
  | index :: rest =>
      do err <- tx_Exec (SQL.mysql_insert_index index) ;;
      match err with
      | Some e => ret (Some (Errorf "unable to insert to 'indices' table" e))
      | None => insertEach rest
      end
  end.

Definition InsertIndexes (indexes : list Index) : M (option error) :=
  if (length indexes =? 0)%nat then ret None
  else
    do err <- client_Begin ;;
    match err with
    | Some e => ret (Some e)
    | None =>
        defer tx_Rollback (
          do err <- insertArtifacts indexes ;;
          match err with
          | Some e => ret (Some (Errorf "insert error" e))
          | None =>
              do err <- insertEach indexes ;;
              match err with
              | Some e => ret (Some e)
              | None => tx_Commit
              end
          end)
    end.

Definition SelectIndexBySha1 (sha1 : string) : M (Index * option error) :=
  let index := zeroIndex in
  let '(sha1b, err) := hex.DecodeString sha1 in
  match err with
  | Some e => ret (index, Some (Errorf "sha1 decode error" e))
  | None =>
      do r <- client_QueryRow_Scan (SQL.select_by_sha1 sha1b) index ;;
      let '(index, err) := r in
      match real_error err with
      | Some e => ret (index, Some (Errorf "select index error" e))
      | None => ret (index, None)
      end
  end.

Definition SelectIndexByArtifactIDAndGroupID (artifactID groupID : string)
    : M (Index * option error) :=
  let index := zeroIndex in
  do r <- client_QueryRow_Scan
         (SQL.select_by_group_and_artifact groupID artifactID) index ;;
  let '(index, err) := r in
  match real_error err with
  | Some e => ret (index, Some (Errorf "select index error" e))
  | None => ret (index, None)
  end.

Definition SelectIndexesByArtifactIDAndFileType
    (artifactID version fileType : string) : M (list Index * option error) :=
  do r <- client_Query
         (SQL.select_by_artifact_and_type artifactID version fileType) ;;
  let '(rows, err) := r in
  match real_error err with
  | Some e => ret ([], Some (Errorf "select indexes error" e))
  | None =>
      ret (foldl (λ indexes index, indexes ++ [index]) [] rows, None)
  end.

End Mysql.

(** ** The [DB] interface of [pkg/db/db.go]

    A value of the interface is one of the two implementations; a call
    goes to the method of that implementation. *)

Inductive Backend : Type := SqliteBackend | MysqlBackend.

#[global] Instance Backend_eq_dec : EqDecision Backend.
Proof. solve_decision. Defined.

Module DB.

Definition Init (b : Backend) : M (option error) :=
  match b with
  | SqliteBackend => Sqlite.Init
  | MysqlBackend => Mysql.Init
  end.

Definition Close (b : Backend) : M (option error) :=
  match b with
  | SqliteBackend => Sqlite.Close
  | MysqlBackend => Mysql.Close
  end.

Definition VacuumDB (b : Backend) : M (option error) :=
  match b with
  | SqliteBackend => Sqlite.VacuumDB
  | MysqlBackend => Mysql.VacuumDB
  end.

Definition InsertIndexes (b : Backend) (indexes : list Index)
    : M (option error) :=
  match b with
  | SqliteBackend => Sqlite.InsertIndexes indexes
  | MysqlBackend => Mysql.InsertIndexes indexes
  end.

Definition SelectIndexBySha1 (b : Backend) (sha1 : string)
    : M (Index * option error) :=
  match b with
  | SqliteBackend => Sqlite.SelectIndexBySha1 sha1
  | MysqlBackend => Mysql.SelectIndexBySha1 sha1
  end.

Definition SelectIndexByArtifactIDAndGroupID (b : Backend)
    (artifactID groupID : string) : M (Index * option error) :=
  match b with
  | SqliteBackend => Sqlite.SelectIndexByArtifactIDAndGroupID artifactID groupID
  | MysqlBackend => Mysql.SelectIndexByArtifactIDAndGroupID artifactID groupID
  end.

Definition SelectIndexesByArtifactIDAndFileType (b : Backend)
    (artifactID version fileType : string) : M (list Index * option error) :=
  match b with
  | SqliteBackend =>
      Sqlite.SelectIndexesByArtifactIDAndFileType artifactID version fileType
  | MysqlBackend =>
      Mysql.SelectIndexesByArtifactIDAndFileType artifactID version fileType
  end.

End DB.


(** ** [pkg/db/db.go]: where the database lives

    The files of the host and the databases of the MySQL servers.  Paths
    are clean slash-separated strings; the directories above a path are
    not tracked. *)

Inductive Node : Type :=
| Directory
| DatabaseFile (d : Database).

Record World : Type := mkWorld {
  files : gmap string Node;      (* by path *)
  servers : gmap string Database (* by connect URL *)
}.

(** A [DB] value: the implementation, what it was opened on, and its
    connection. *)
Record Handle : Type := mkHandle {
  backend : Backend;
  location : string;
  client : Conn
}.

(** [types.SqliteDBConfig], [types.MysqlDBConfig], [types.DBConfig]
    ([pkg/types/conf.go]); a nil pointer is [None]. *)
Record SqliteDBConfig : Type := mkSqliteDBConfig { DBPath : string }.
Record MysqlDBConfig : Type := mkMysqlDBConfig { DBConnectURL : string }.
Record DBConfig : Type := mkDBConfig {
  sqliteDBConfig : option SqliteDBConfig;
  mysqlDBConfig : option MysqlDBConfig
}.

Definition dbFileName : string := "trivy-java.db".
Definition SchemaVersion : Z := 1.

(** [filepath.Join] of two clean elements. *)
Definition filepath_Join (a b : string) : string :=
  if bool_decide (a = "") then b
  else if bool_decide (b = "") then a
  else a +:+ "/" +:+ b.

(** The characters before the last slash, if there is a slash. *)
Fixpoint before_last_slash (s : list ascii) : option (list ascii) :=
  match s with
  | [] => None
  | c :: rest =>
      match before_last_slash rest with
      | Some p => Some (c :: p)
      | None => if bool_decide (c = "/"%char) then Some [] else None
      end
  end.

(** [filepath.Dir] of a clean path. *)
Definition filepath_Dir (p : string) : string :=
  match before_last_slash (list_ascii_of_string p) with
  | None => "."
  | Some [] => "/"
  | Some d => string_of_list_ascii d
  end.

(** [os.RemoveAll]: the path and everything below it goes; a path that
    does not exist is not an error. *)
Definition os_RemoveAll (p : string) (w : World) : option error * World :=
  (None,
   mkWorld (filter (λ kv, kv.1 ≠ p ∧ String.prefix (p +:+ "/") kv.1 = false)
                   (files w))
           (servers w)).

(** [os.MkdirAll]: fine when the directory is there, an error when the
    path is a file. *)
Definition os_MkdirAll (p : string) (w : World) : option error * World :=
  match files w !! p with
  | Some Directory => (None, w)
  | Some (DatabaseFile _) => (Some (PathError ("mkdir " +:+ p +:+ ": not a directory")), w)
  | None => (None, mkWorld (<[p := Directory]> (files w)) (servers w))
  end.

Definition path (cacheDir : string) : string :=
  filepath_Join cacheDir dbFileName.

Definition Reset (cacheDir : string) (w : World) : option error * World :=
  os_RemoveAll (path cacheDir) w.

(** [NewSqlite]: [sql.Open] and the first statement ([PRAGMA
    foreign_keys=true]) open the file at [dbPath], creating an empty
    database when there is none. *)
Definition NewSqlite (dbPath : string) (w : World)
    : (Handle + error) * World :=
  match files w !! dbPath with
  | Some (DatabaseFile d) =>
      (inl (mkHandle SqliteBackend dbPath (mkConn d None [])), w)
  | None =>
      (inl (mkHandle SqliteBackend dbPath (mkConn emptyDatabase None [])),
       mkWorld (<[dbPath := DatabaseFile emptyDatabase]> (files w)) (servers w))
  | Some Directory =>
      (inr (Errorf "failed to enable 'foreign_keys'"
              (EngineError "unable to open database file")), w)
  end.

(** [NewMysql]: the handle on the database that the URL names; a URL
    that names none is refused.  A constructor returns the handle or the
    error, never both. *)
Definition NewMysql (dbConnectURL : string) (w : World)
    : (Handle + error) * World :=
  match servers w !! dbConnectURL with
  | Some d => (inl (mkHandle MysqlBackend dbConnectURL (mkConn d None [])), w)
  | None =>
      (inr (Errorf ("can't open " +:+ dbConnectURL +:+ " db")
              (EngineError "invalid DSN")), w)
  end.

Definition New (cacheDir : string) (conf : DBConfig) (w : World)
    : (Handle + error) * World :=
  let dbPath := path cacheDir in
  let dbDir := filepath_Dir dbPath in
  match os_MkdirAll dbDir w with
  | (Some e, w) => (inr (Errorf "failed to mkdir" e), w)
  | (None, w) =>
      match sqliteDBConfig conf, mysqlDBConfig conf with
      | Some sc, _ => NewSqlite (DBPath sc) w
      | None, Some mc => NewMysql (DBConnectURL mc) w
      | None, None => (inr (ErrorString "no db config found"), w)
      end
  end.

(** What the connection has committed is what the file, or the server,
    holds. *)
Definition written_back (h : Handle) (w : World) : World :=
  match backend h with
  | SqliteBackend =>
      mkWorld (<[location h := DatabaseFile (store (client h))]> (files w))
              (servers w)
  | MysqlBackend =>
      mkWorld (files w) (<[location h := store (client h)]> (servers w))
  end.

(** A method of the interface called on a handle. *)
Definition call {A : Type} (method : Backend -> M A) (h : Handle) : A * Handle :=
  let '(a, c) := method (backend h) (client h) in
  (a, mkHandle (backend h) (location h) c).

(** ** [cmd/trivy-java-db/main.go]: the build command

    [builder.NewBuilder(dbc, meta).Build(cacheDir)] belongs to a package
    that is not part of the sources at hand: it is a parameter, acting
    on the connection of the handle it is given. *)

Section Build.

Variable builder_Build : string -> Backend -> M (option error).

Definition build (cacheDir : string) (conf : DBConfig) (w : World)
    : option error * World :=
  match Reset cacheDir w with
  | (Some e, w) => (Some (Errorf "db reset error" e), w)
  | (None, w) =>
      let dbDir := filepath_Join cacheDir "db" in
      match New dbDir conf w with
      | (inr e, w) => (Some (Errorf "db create error" e), w)
      | (inl dbc, w) =>
          let '(err, dbc) := call DB.Init dbc in
          let w := written_back dbc w in
          match err with
          | Some e => (Some (Errorf "db init error" e), w)
          | None =>
              let '(err, dbc) := call (builder_Build cacheDir) dbc in
              let w := written_back dbc w in
              match err with
              | Some e => (Some (Errorf "db build error" e), w)
              | None => (None, w)
              end
          end
      end
  end.

(** [buildCmd.RunE], with the flag variables as arguments. *)
Definition buildCmd_RunE (cacheDir dbPath dbConnectURL : string) (w : World)
    : option error * World :=
  if negb (bool_decide (dbPath = "")) then
    build cacheDir (mkDBConfig (Some (mkSqliteDBConfig dbPath)) None) w
  else if negb (bool_decide (dbConnectURL = "")) then
    build cacheDir (mkDBConfig None (Some (mkMysqlDBConfig dbConnectURL))) w
  else (Some (ErrorString "must use --sqlite or --mysql"), w).

End Build.

(** ** Notions used by the statements below *)

(** The constraints that [Init] declares, as properties of the rows:
    the primary key of [artifacts], [artifacts_idx], [indices_sha1_idx]
    and the foreign key of [indices]. *)
Record consistent (d : Database) : Prop := mkConsistent {
  primary_key : NoDup (a_id <$> artifacts d);
  artifacts_idx : NoDup (SQL.artifact_key <$> artifacts d);
  indices_sha1_idx : NoDup (i_sha1 <$> indices d);
  foreign_key : ∀ i, i ∈ indices d → SQL.fk_ok (i_artifact_id i) d = true
}.

(** One record of a batch, when the engine serves the statement: the
    row is appended unless its sha1 is there. *)
Definition insert_index_row (d : Database) (x : Index) : Database :=
  if SQL.sha1_taken x d then d
  else set_indices (indices d ++ [SQL.new_index_row x d]) d.

Definition pairs (indexes : list Index) : list (string * string) :=
  (λ index, (GroupID index, ArtifactID index)) <$> indexes.

(** A whole batch, when the engine serves every statement. *)
Definition load (indexes : list Index) (d : Database) : Database :=
  foldl insert_index_row
        (foldl SQL.insert_or_ignore_artifact d (pairs indexes)) indexes.

(** A run of [InsertIndexes] calls, one per batch, in order. *)
Fixpoint InsertAll (b : Backend) (batches : list (list Index))
    : M (list (option error)) :=
  match batches with
  | [] => ret []
  | indexes :: rest =>
      do err <- DB.InsertIndexes b indexes ;;
      do errs <- InsertAll b rest ;;
      ret (err :: errs)
  end.

(** [d'] holds the rows of [d], in place, and maybe more after them. *)
Record extends (d d' : Database) : Prop := mkExtends {
  ext_catalog : catalog d' = catalog d;
  ext_artifacts : artifacts d `prefix_of` artifacts d';
  ext_indices : indices d `prefix_of` indices d'
}.

(** A connection with nothing pending that the engine is going to
    serve. *)
Definition serving (d : Database) : Conn := mkConn d None [].


(** The characters that [hex.DecodeString] is meant to accept, and the
    strings that encode bytes with them: an even number of them. *)
Definition hex_digits : list ascii :=
  list_ascii_of_string "0123456789abcdefABCDEF".

Definition valid_hex (s : string) : Prop :=
  Nat.Even (length (list_ascii_of_string s)) ∧
  Forall (λ c, c ∈ hex_digits) (list_ascii_of_string s).

(** The names that [Sqlite.Init] creates. *)
Definition sqlite_names : list string :=
  ["artifacts"; "indices"; "artifacts_idx"; "indices_artifact_idx";
   "indices_sha1_idx"].

(** ** Sample data

    The coordinates of the examples of the specification, with two
    20-byte digests. *)

Definition digest_a : list byte :=
  [x01; x23; x45; x67; x89; xab; xcd; xef; x01; x23;
   x45; x67; x89; xab; xcd; xef; x01; x23; x45; x67].

Definition digest_b : list byte :=
  [xfe; xdc; xba; x98; x76; x54; x32; x10; xfe; xdc;
   xba; x98; x76; x54; x32; x10; xfe; xdc; xba; x98].

Definition lib_example : Index :=
  mkIndex "org.example" "lib" "1.0" digest_a "jar".

Definition lib_other : Index :=
  mkIndex "org.other" "lib" "1.0" digest_b "jar".

(** A later release of [lib_example], with the digest of [lib_other]. *)
Definition lib_example_2 : Index :=
  mkIndex "org.example" "lib" "2.0" digest_b "jar".

(** Another record that carries the digest of [lib_example]. *)
Definition lib_clash : Index :=
  mkIndex "org.clash" "other-lib" "3.1" digest_a "war".

(** The database that [Sqlite.Init] makes of an empty file. *)
Definition fresh : Database :=
  mkDatabase
    [TableObj "artifacts"; TableObj "indices";
     IndexObj "artifacts_idx" "artifacts" true ["artifact_id"; "group_id"];
     IndexObj "indices_artifact_idx" "indices" false ["artifact_id"];
     IndexObj "indices_sha1_idx" "indices" true ["sha1"]]
    [] [].

(** The database of an earlier build: one artifact with two releases. *)
Definition earlier : Database :=
  mkDatabase (catalog fresh)
    [mkArtifactRow 1 "org.example" "lib"]
    [mkIndexRow (Some 1%Z) "0.9" digest_b "jar";
     mkIndexRow (Some 1%Z) "0.9" [x00] "war"].



(** A host on which an earlier build left its database at the path
    that [db.New] computes for the cache directory, and a MySQL server
    that holds the database of an earlier build. *)
Definition cache_dir : string := "/cache".
Definition db_path : string := "/cache/db/trivy-java.db".
Definition connect_url : string := "builder:secret@tcp(db:3306)/javadb".

Definition host : World :=
  mkWorld {[ db_path := DatabaseFile earlier ]} {[ connect_url := earlier ]}.

(** A builder that loads nothing. *)
Definition idle_Build : string -> Backend -> M (option error) :=
  λ _ _, ret None.


(** One release found twice, under two digests. *)
Definition doubled : Database :=
  mkDatabase (catalog fresh)
    [mkArtifactRow 1 "org.example" "lib"]
    [mkIndexRow (Some 1%Z) "1.0" digest_a "jar";
     mkIndexRow (Some 1%Z) "1.0" digest_b "jar"].

(** A database in which only a table named [indices] exists. *)
Definition half : Database :=
  mkDatabase [TableObj "indices"] [] [].

(** A host on which an earlier build left its database at the path
    that [Reset] removes. *)
Definition stale_host : World :=
  mkWorld {[ path cache_dir := DatabaseFile earlier ]} ∅.


(** * Properties *)

(** ** Hexadecimal round trip *)

Lemma Decode_Encode_byte (v : byte) (rest : list ascii) :
  hex.Decode (hex.Encode [v] ++ rest) =
  (v :: (hex.Decode rest).1, (hex.Decode rest).2).
Proof.
  destruct (hex.Decode rest) as [bs err] eqn:E.
  destruct v; simpl; rewrite E; reflexivity.
Qed.

Lemma Decode_Encode (bs : list byte) : hex.Decode (hex.Encode bs) = (bs, None).
Proof.
  induction bs as [|v bs IH]; [reflexivity|].
  change (hex.Encode (v :: bs)) with (hex.Encode [v] ++ hex.Encode bs).
  rewrite Decode_Encode_byte, IH. reflexivity.
Qed.

Lemma DecodeString_EncodeToString (bs : list byte) :
  hex.DecodeString (hex.EncodeToString bs) = (bs, None).
Proof.
  unfold hex.DecodeString, hex.EncodeToString.
  rewrite list_ascii_of_string_of_list_ascii. apply Decode_Encode.
Qed.


(** ** The artifacts of a batch *)

Lemma next_rowid_above (rows : list ArtifactRow) (r : ArtifactRow) :
  r ∈ rows → (a_id r < SQL.next_rowid rows)%Z.
Proof.
  destruct rows as [|r0 rest]; [by intros ?%elem_of_nil|].
  unfold SQL.next_rowid. intros Hin.
  assert (∀ z (l : list Z), Forall (λ y, (y ≤ foldr Z.max z l)%Z) (z :: l)) as Hmax.
  { intros z l. induction l as [|y l IH]; simpl.
    - constructor; [lia | constructor].
    - inversion IH as [|? ? Hz Hl]; subst. constructor; [lia|].
      constructor; [lia|]. eapply Forall_impl; [exact Hl|]. simpl. intros; lia. }
  specialize (Hmax (a_id r0) (a_id <$> rest)).
  rewrite Forall_forall in Hmax.
  specialize (Hmax (a_id r)).
  change (a_id r0 :: (a_id <$> rest)) with (a_id <$> (r0 :: rest)) in Hmax.
  assert (a_id r ∈ a_id <$> r0 :: rest) as Hr by (apply list_elem_of_fmap; eauto).
  apply Hmax in Hr. lia.
Qed.

Lemma next_rowid_fresh (rows : list ArtifactRow) :
  SQL.next_rowid rows ∉ a_id <$> rows.
Proof.
  intros (r & Heq & Hin)%list_elem_of_fmap.
  apply next_rowid_above in Hin. lia.
Qed.

(** What one tuple does: nothing when its pair is there, one new row
    with a fresh id otherwise. *)
Lemma insert_or_ignore_artifact_cases (d : Database) (g a : string) :
  ((a, g) ∈ SQL.artifact_key <$> artifacts d ∧
   SQL.insert_or_ignore_artifact d (g, a) = d) ∨
  (((a, g) ∉ SQL.artifact_key <$> artifacts d) ∧
   SQL.insert_or_ignore_artifact d (g, a) =
     set_artifacts
       (artifacts d ++ [mkArtifactRow (SQL.next_rowid (artifacts d)) g a]) d).
Proof.
  unfold SQL.insert_or_ignore_artifact. case_bool_decide; [left|right]; done.
Qed.

Lemma extends_refl (d : Database) : extends d d.
Proof. by constructor. Qed.

Lemma extends_trans (d1 d2 d3 : Database) :
  extends d1 d2 → extends d2 d3 → extends d1 d3.
Proof.
  intros [H1 H2 H3] [H1' H2' H3']. constructor.
  - congruence.
  - by etrans.
  - by etrans.
Qed.

Lemma fk_ok_extends (d d' : Database) (aid : option Z) :
  extends d d' → SQL.fk_ok aid d = true → SQL.fk_ok aid d' = true.
Proof.
  intros [_ [k Hk] _]. destruct aid as [id|]; [|done]. simpl.
  rewrite !bool_decide_eq_true, Hk, fmap_app, elem_of_app. auto.
Qed.

Lemma insert_or_ignore_artifact_extends (d : Database) (v : string * string) :
  extends d (SQL.insert_or_ignore_artifact d v).
Proof.
  destruct v as [g a].
  destruct (insert_or_ignore_artifact_cases d g a) as [[_ ->]|[_ ->]].
  - apply extends_refl.
  - constructor; simpl; [done | by apply prefix_app_r | done].
Qed.


Lemma insert_or_ignore_artifact_present (d : Database) (g a : string) :
  (a, g) ∈ SQL.artifact_key <$> artifacts (SQL.insert_or_ignore_artifact d (g, a)).
Proof.
  destruct (insert_or_ignore_artifact_cases d g a) as [[H ->]|[_ ->]]; [done|].
  simpl. rewrite fmap_app, elem_of_app. right. simpl. apply list_elem_of_singleton.
  reflexivity.
Qed.

Lemma insert_or_ignore_artifact_consistent (d : Database) (v : string * string) :
  consistent d → consistent (SQL.insert_or_ignore_artifact d v).
Proof.
  intros Hc. pose proof (insert_or_ignore_artifact_extends d v) as Hext.
  destruct v as [g a].
  destruct (insert_or_ignore_artifact_cases d g a) as [[_ Heq]|[Hnew Heq]];
    rewrite Heq in Hext |- *; [done|].
  destruct Hc as [Hpk Hidx Hsha Hfk]. constructor; simpl.
  - rewrite fmap_app. apply NoDup_app. split; [done|]. split.
    + intros z Hz Hz'%list_elem_of_singleton. simpl in Hz'. subst z.
      by apply next_rowid_fresh in Hz.
    + apply NoDup_singleton.
  - rewrite fmap_app. apply NoDup_app. split; [done|]. split.
    + intros k Hk Hk'%list_elem_of_singleton. simpl in Hk'. by subst k.
    + apply NoDup_singleton.
  - done.
  - intros i Hi. eapply fk_ok_extends; [exact Hext|]. by apply Hfk.
Qed.

Lemma key_present_extends (d d' : Database) (k : string * string) :
  extends d d' →
  k ∈ SQL.artifact_key <$> artifacts d → k ∈ SQL.artifact_key <$> artifacts d'.
Proof.
  intros [_ [rest Hk] _]. rewrite Hk, fmap_app, elem_of_app. auto.
Qed.

Section ArtifactsOfBatch.

Implicit Types (d : Database) (values : list (string * string)).

Lemma insert_artifacts_extends values d :
  extends d (foldl SQL.insert_or_ignore_artifact d values).
Proof.
  revert d. induction values as [|v values IH]; intros d; cbn [foldl].
  - apply extends_refl.
  - eapply extends_trans; [apply insert_or_ignore_artifact_extends | apply IH].
Qed.


Lemma insert_artifacts_consistent values d :
  consistent d → consistent (foldl SQL.insert_or_ignore_artifact d values).
Proof.
  revert d. induction values as [|v values IH]; intros d Hc; cbn [foldl]; [done|].
  by apply IH, insert_or_ignore_artifact_consistent.
Qed.

Lemma insert_artifacts_present values d (g a : string) :
  (g, a) ∈ values →
  (a, g) ∈ SQL.artifact_key <$> artifacts (foldl SQL.insert_or_ignore_artifact d values).
Proof.
  revert d. induction values as [|v values IH]; intros d Hin; cbn [foldl].
  - by apply elem_of_nil in Hin.
  - apply elem_of_cons in Hin as [<-|Hin]; [|by apply IH].
    eapply key_present_extends; [apply insert_artifacts_extends|].
    apply insert_or_ignore_artifact_present.
Qed.

(** Tuples whose pairs are all there leave the table as it is. *)
Lemma insert_artifacts_noop values d :
  (∀ g a, (g, a) ∈ values → (a, g) ∈ SQL.artifact_key <$> artifacts d) →
  foldl SQL.insert_or_ignore_artifact d values = d.
Proof.
  induction values as [|[g a] values IH]; intros Hall; cbn [foldl]; [done|].
  destruct (insert_or_ignore_artifact_cases d g a) as [[_ ->]|[Hnew _]].
  - apply IH. intros g' a' Hin. apply Hall. by right.
  - exfalso. apply Hnew, Hall. by left.
Qed.

End ArtifactsOfBatch.


(** ** The index rows of a batch *)

Lemma select_artifact_id_Some (g a : string) (d : Database) (id : Z) :
  SQL.select_artifact_id g a d = Some id →
  mkArtifactRow id g a ∈ artifacts d.
Proof.
  unfold SQL.select_artifact_id. intros Hsel.
  destruct (head _) as [r|] eqn:Hhead; [|done].
  apply head_Some_elem_of, list_elem_of_filter in Hhead as [[Hg Ha] Hin].
  injection Hsel as <-. destruct r; simpl in *; by subst.
Qed.


(** The id that the sub-select gives is the id of a row: the foreign
    key cannot fail on it. *)
Lemma fk_ok_select_artifact_id (g a : string) (d : Database) :
  SQL.fk_ok (SQL.select_artifact_id g a d) d = true.
Proof.
  destruct (SQL.select_artifact_id g a d) as [id|] eqn:Hsel; [|done].
  apply select_artifact_id_Some in Hsel. simpl. apply bool_decide_eq_true.
  apply list_elem_of_fmap. by exists (mkArtifactRow id g a).
Qed.

Lemma sqlite_insert_index_Done (x : Index) (d : Database) :
  SQL.sqlite_insert_index x d = Done (insert_index_row d x).
Proof.
  unfold SQL.sqlite_insert_index, insert_index_row.
  destruct (SQL.sha1_taken x d); [done|].
  unfold SQL.new_index_row at 1. cbn [i_artifact_id].
  by rewrite fk_ok_select_artifact_id.
Qed.

Lemma mysql_insert_index_Done (x : Index) (d : Database) :
  SQL.mysql_insert_index x d = Done (insert_index_row d x).
Proof.
  unfold SQL.mysql_insert_index, insert_index_row.
  destruct (SQL.sha1_taken x d); [done|].
  unfold SQL.new_index_row at 1. cbn [i_artifact_id].
  by rewrite fk_ok_select_artifact_id.
Qed.

Lemma insert_index_row_cases (d : Database) (x : Index) :
  (SHA1 x ∈ i_sha1 <$> indices d ∧ insert_index_row d x = d) ∨
  ((SHA1 x ∉ i_sha1 <$> indices d) ∧
   insert_index_row d x = set_indices (indices d ++ [SQL.new_index_row x d]) d).
Proof.
  unfold insert_index_row, SQL.sha1_taken. case_bool_decide; [left|right]; done.
Qed.

Lemma insert_index_row_extends (d : Database) (x : Index) :
  extends d (insert_index_row d x).
Proof.
  destruct (insert_index_row_cases d x) as [[_ ->]|[_ ->]].
  - apply extends_refl.
  - constructor; simpl; [done | done | by apply prefix_app_r].
Qed.

Lemma insert_index_row_artifacts (d : Database) (x : Index) :
  artifacts (insert_index_row d x) = artifacts d.
Proof. by destruct (insert_index_row_cases d x) as [[_ ->]|[_ ->]]. Qed.

Lemma insert_index_row_present (d : Database) (x : Index) :
  SHA1 x ∈ i_sha1 <$> indices (insert_index_row d x).
Proof.
  destruct (insert_index_row_cases d x) as [[H ->]|[_ ->]]; [done|].
  simpl. rewrite fmap_app, elem_of_app. right. apply list_elem_of_singleton.
  reflexivity.
Qed.

Lemma insert_index_row_consistent (d : Database) (x : Index) :
  consistent d → consistent (insert_index_row d x).
Proof.
  intros Hc. destruct (insert_index_row_cases d x) as [[_ ->]|[Hnew ->]]; [done|].
  assert (extends d (set_indices (indices d ++ [SQL.new_index_row x d]) d)) as Hext.
  { constructor; simpl; [done | done | by apply prefix_app_r]. }
  destruct Hc as [Hpk Hidx Hsha Hfk]. constructor; [done|done| |].
  - simpl. rewrite fmap_app. apply NoDup_app. split; [done|]. split.
    + intros s Hs Hs'%list_elem_of_singleton. simpl in Hs'. by subst s.
    + apply NoDup_singleton.
  - intros i Hi. eapply fk_ok_extends; [exact Hext|].
    simpl in Hi. apply elem_of_app in Hi as [Hi|Hi%list_elem_of_singleton].
    + by apply Hfk.
    + subst i. apply fk_ok_select_artifact_id.
Qed.

Lemma sha1_present_extends (d d' : Database) (s : list byte) :
  extends d d' → s ∈ i_sha1 <$> indices d → s ∈ i_sha1 <$> indices d'.
Proof.
  intros [_ _ [rest Hk]]. rewrite Hk, fmap_app, elem_of_app. auto.
Qed.

Section RowsOfBatch.

Implicit Types (d : Database) (indexes : list Index).

Lemma insert_rows_extends indexes d :
  extends d (foldl insert_index_row d indexes).
Proof.
  revert d. induction indexes as [|x indexes IH]; intros d; cbn [foldl].
  - apply extends_refl.
  - eapply extends_trans; [apply insert_index_row_extends | apply IH].
Qed.

Lemma insert_rows_artifacts indexes d :
  artifacts (foldl insert_index_row d indexes) = artifacts d.
Proof.
  revert d. induction indexes as [|x indexes IH]; intros d; cbn [foldl]; [done|].
  by rewrite IH, insert_index_row_artifacts.
Qed.

Lemma insert_rows_consistent indexes d :
  consistent d → consistent (foldl insert_index_row d indexes).
Proof.
  revert d. induction indexes as [|x indexes IH]; intros d Hc; cbn [foldl]; [done|].
  by apply IH, insert_index_row_consistent.
Qed.

Lemma insert_rows_present indexes d (x : Index) :
  x ∈ indexes → SHA1 x ∈ i_sha1 <$> indices (foldl insert_index_row d indexes).
Proof.
  revert d. induction indexes as [|y indexes IH]; intros d Hin; cbn [foldl].
  - by apply elem_of_nil in Hin.
  - apply elem_of_cons in Hin as [<-|Hin]; [|by apply IH].
    eapply sha1_present_extends; [apply insert_rows_extends|].
    apply insert_index_row_present.
Qed.

(** Records whose digests are all there leave the table as it is. *)
Lemma insert_rows_noop indexes d :
  (∀ x, x ∈ indexes → SHA1 x ∈ i_sha1 <$> indices d) →
  foldl insert_index_row d indexes = d.
Proof.
  induction indexes as [|x indexes IH]; intros Hall; cbn [foldl]; [done|].
  destruct (insert_index_row_cases d x) as [[_ ->]|[Hnew _]].
  - apply IH. intros y Hin. apply Hall. by right.
  - exfalso. apply Hnew, Hall. by left.
Qed.


End RowsOfBatch.

(** ** The whole batch *)

Lemma load_extends (indexes : list Index) (d : Database) :
  extends d (load indexes d).
Proof.
  unfold load. eapply extends_trans;
    [apply insert_artifacts_extends | apply insert_rows_extends].
Qed.

Lemma load_consistent (indexes : list Index) (d : Database) :
  consistent d → consistent (load indexes d).
Proof.
  intros Hc. unfold load. by apply insert_rows_consistent, insert_artifacts_consistent.
Qed.

Lemma load_nil (d : Database) : load [] d = d.
Proof. reflexivity. Qed.

Lemma load_key_present (indexes : list Index) (d : Database) (x : Index) :
  x ∈ indexes →
  (ArtifactID x, GroupID x) ∈ SQL.artifact_key <$> artifacts (load indexes d).
Proof.
  intros Hin. unfold load. rewrite insert_rows_artifacts.
  apply insert_artifacts_present. unfold pairs.
  apply list_elem_of_fmap. by exists x.
Qed.

Lemma load_sha1_present (indexes : list Index) (d : Database) (x : Index) :
  x ∈ indexes → SHA1 x ∈ i_sha1 <$> indices (load indexes d).
Proof. intros Hin. unfold load. by apply insert_rows_present. Qed.

(** Loading a batch again changes nothing. *)
Lemma load_idempotent (indexes : list Index) (d : Database) :
  load indexes (load indexes d) = load indexes d.
Proof.
  set (d1 := load indexes d). unfold load.
  rewrite insert_artifacts_noop.
  - apply insert_rows_noop. intros x Hin. by apply load_sha1_present.
  - intros g a (x & [= -> ->] & Hin)%list_elem_of_fmap.
    by apply load_key_present.
Qed.


(** ** [InsertIndexes], statement by statement *)

(** A statement in a transaction: the engine fails the call and the
    transaction stays as it was, or the statement runs. *)
Lemma tx_Exec_cases (stmt : Database → outcome) (s d : Database) (fs : list bool) :
  (∃ e fs', tx_Exec stmt (mkConn s (Some d) fs) = (Some e, mkConn s (Some d) fs')) ∨
  (∃ d' fs', stmt d = Done d' ∧
             tx_Exec stmt (mkConn s (Some d) fs) = (None, mkConn s (Some d') fs')).
Proof.
  unfold tx_Exec, bind, next_fault, ret. simpl.
  destruct fs as [|[] fs]; simpl; eauto; destruct (stmt d) eqn:E; eauto.
Qed.

Lemma tx_Exec_serving (stmt : Database → outcome) (s d d' : Database) :
  stmt d = Done d' →
  tx_Exec stmt (mkConn s (Some d) []) = (None, mkConn s (Some d') []).
Proof. intros E. unfold tx_Exec, bind, next_fault, ret. simpl. by rewrite E. Qed.

(** On the rows, the two dialects of the index insert do the same. *)
Lemma tx_Exec_insert_index_agree (x : Index) (c : Conn) :
  tx_Exec (SQL.mysql_insert_index x) c = tx_Exec (SQL.sqlite_insert_index x) c.
Proof.
  unfold tx_Exec, bind. destruct (next_fault c) as [[] c']; [done|].
  destruct (pending c'); [|done].
  by rewrite mysql_insert_index_Done, sqlite_insert_index_Done.
Qed.

Lemma insertEach_agree (indexes : list Index) (c : Conn) :
  Mysql.insertEach indexes c = Sqlite.insertEach indexes c.
Proof.
  revert c. induction indexes as [|x indexes IH]; intros c; [done|].
  cbn [Mysql.insertEach Sqlite.insertEach]. unfold bind.
  rewrite tx_Exec_insert_index_agree.
  destruct (tx_Exec _ c) as [[e|] c']; [done | apply IH].
Qed.

Lemma InsertIndexes_agree (b : Backend) (indexes : list Index) (c : Conn) :
  DB.InsertIndexes b indexes c = Sqlite.InsertIndexes indexes c.
Proof.
  destruct b; [done|]. unfold DB.InsertIndexes, Mysql.InsertIndexes,
    Sqlite.InsertIndexes.
  destruct (length indexes =? 0)%nat; [done|].
  unfold bind, defer, bind.
  destruct (client_Begin c) as [[e|] c1]; [done|].
  change (Mysql.insertArtifacts indexes c1) with (Sqlite.insertArtifacts indexes c1).
  destruct (Sqlite.insertArtifacts indexes c1) as [[e|] c2]; [done|].
  by rewrite insertEach_agree.
Qed.

Lemma insertEach_cases (indexes : list Index) (s d : Database) (fs : list bool) :
  (∃ e d' fs', Sqlite.insertEach indexes (mkConn s (Some d) fs) =
               (Some e, mkConn s (Some d') fs')) ∨
  (∃ fs', Sqlite.insertEach indexes (mkConn s (Some d) fs) =
          (None, mkConn s (Some (foldl insert_index_row d indexes)) fs')).
Proof.
  revert d fs. induction indexes as [|x indexes IH]; intros d fs.
  - right. by exists fs.
  - cbn [Sqlite.insertEach foldl]. unfold bind.
    destruct (tx_Exec_cases (SQL.sqlite_insert_index x) s d fs)
      as [(e & fs' & ->)|(d' & fs' & Hd' & ->)].
    + left. by exists (Errorf "unable to insert to 'indices' table" e), d, fs'.
    + rewrite sqlite_insert_index_Done in Hd'. injection Hd' as <-. apply IH.
Qed.

Lemma insertEach_serving (indexes : list Index) (s d : Database) :
  Sqlite.insertEach indexes (mkConn s (Some d) []) =
  (None, mkConn s (Some (foldl insert_index_row d indexes)) []).
Proof.
  revert d. induction indexes as [|x indexes IH]; intros d; [done|].
  cbn [Sqlite.insertEach foldl]. unfold bind.
  rewrite (tx_Exec_serving _ s d _ (sqlite_insert_index_Done x d)). apply IH.
Qed.

(** When the engine serves every call, the batch is loaded and
    committed, and there is no error. *)
Lemma Sqlite_InsertIndexes_serving (indexes : list Index) (d : Database) :
  Sqlite.InsertIndexes indexes (serving d) = (None, serving (load indexes d)).
Proof.
  unfold Sqlite.InsertIndexes. destruct indexes as [|x indexes]; [done|].
  cbn [length Nat.eqb]. set (xs := x :: indexes).
  unfold serving, bind, defer, bind, client_Begin, bind, next_fault, ret. cbn -[xs].
  rewrite insertEach_serving. reflexivity.
Qed.

Lemma InsertIndexes_serving (b : Backend) (indexes : list Index) (d : Database) :
  DB.InsertIndexes b indexes (serving d) = (None, serving (load indexes d)).
Proof. rewrite InsertIndexes_agree. apply Sqlite_InsertIndexes_serving. Qed.

(** Whatever the engine does: the batch is loaded and committed and
    there is no error, or there is an error and the committed database
    is the one before the call.  No transaction is left open. *)
Lemma Sqlite_InsertIndexes_cases (indexes : list Index) (d : Database)
    (fs : list bool) :
  (∃ e fs', Sqlite.InsertIndexes indexes (mkConn d None fs) =
            (Some e, mkConn d None fs')) ∨
  (∃ fs', Sqlite.InsertIndexes indexes (mkConn d None fs) =
          (None, mkConn (load indexes d) None fs')).
Proof.
  unfold Sqlite.InsertIndexes. destruct indexes as [|x indexes].
  { right. by exists fs. }
  cbn [length Nat.eqb]. set (xs := x :: indexes).
  unfold bind at 1. unfold client_Begin, bind, next_fault, ret.
  cbn -[xs tx_Exec Sqlite.insertEach tx_Commit tx_Rollback defer Sqlite.insertArtifacts].
  destruct fs as [|[] fs];
    cbn -[xs tx_Exec Sqlite.insertEach tx_Commit tx_Rollback defer Sqlite.insertArtifacts];
    [ | left; by exists engine_failure, fs | ].
  all: unfold defer, bind, Sqlite.insertArtifacts, bind.
  all: match goal with
       | |- context [tx_Exec ?stmt (mkConn ?s (Some ?d0) ?fs0)] =>
           destruct (tx_Exec_cases stmt s d0 fs0)
             as [(e & fs' & ->)|(d' & fs' & Hd' & ->)]
       end.
  all: try (left; cbn; eauto; fail).
  all: unfold SQL.insert_artifacts in Hd'; injection Hd' as <-.
  all: unfold ret; cbn beta iota.
  all: match goal with
       | |- context [Sqlite.insertEach ?ys (mkConn ?s (Some ?d0) ?fs0)] =>
           destruct (insertEach_cases ys s d0 fs0)
             as [(e & d' & fs'' & ->)|(fs'' & ->)]
       end.
  all: try (left; cbn; eauto; fail).
  all: unfold tx_Commit, next_fault; cbn -[xs].
  all: destruct fs'' as [|[] fs'']; cbn -[xs]; eauto.
Qed.


(** ** The join of the two tables *)


Lemma filter_nil_elem_of {A : Type} (P : A → Prop) `{!∀ x, Decision (P x)}
    (l : list A) :
  (∀ x, x ∈ l → ¬ P x) → filter P l = [].
Proof.
  induction l as [|x l IH]; intros Hno; [done|].
  rewrite filter_cons_False by (apply Hno; by left).
  apply IH. intros y Hy. apply Hno. by right.
Qed.

(** In a list without two elements of the same key, the elements of one
    key are one element. *)
Lemma filter_unique {A B : Type} (key : A → B) (P : A → Prop)
    `{!∀ x, Decision (P x)} (l : list A) (y : A) :
  NoDup (key <$> l) → y ∈ l → (∀ z, P z ↔ key z = key y) → filter P l = [y].
Proof.
  intros Hnd Hin HP. induction l as [|x l IH]; [by apply elem_of_nil in Hin|].
  rewrite fmap_cons in Hnd. apply NoDup_cons in Hnd as [Hx Hnd].
  apply elem_of_cons in Hin as [<-|Hin].
  - rewrite filter_cons_True by (by apply HP). f_equal.
    apply filter_nil_elem_of. intros z Hz HPz%HP.
    apply Hx. rewrite <- HPz. apply list_elem_of_fmap. by exists z.
  - rewrite filter_cons_False; [by apply IH|].
    intros HPx%HP. apply Hx. rewrite HPx. apply list_elem_of_fmap. by exists y.
Qed.

Lemma joined_elem_of (d : Database) (i : IndexRow) (a : ArtifactRow) :
  (i, a) ∈ SQL.joined d ↔
  i ∈ indices d ∧ a ∈ artifacts d ∧ i_artifact_id i = Some (a_id a).
Proof.
  unfold SQL.joined. rewrite list_elem_of_bind. split.
  - intros (i' & Hia & Hi'). apply list_elem_of_fmap in Hia as (a' & [= -> ->] & Ha').
    apply list_elem_of_filter in Ha' as [Hid Ha']. done.
  - intros (Hi & Ha & Hid). exists i. split; [|done].
    apply list_elem_of_fmap. exists a. split; [done|].
    by apply list_elem_of_filter.
Qed.



(** ** The queries on a connection that the engine serves *)

Lemma SelectIndexBySha1_agree (b : Backend) (sha1 : string) :
  DB.SelectIndexBySha1 b sha1 = Sqlite.SelectIndexBySha1 sha1.
Proof. by destruct b. Qed.

Lemma SelectIndexByArtifactIDAndGroupID_agree (b : Backend) (a g : string) :
  DB.SelectIndexByArtifactIDAndGroupID b a g =
  Sqlite.SelectIndexByArtifactIDAndGroupID a g.
Proof. by destruct b. Qed.

Lemma SelectIndexesByArtifactIDAndFileType_agree (b : Backend) (a v t : string) :
  DB.SelectIndexesByArtifactIDAndFileType b a v t =
  Sqlite.SelectIndexesByArtifactIDAndFileType a v t.
Proof. by destruct b. Qed.

Lemma append_each {A : Type} (rows acc : list A) :
  foldl (λ indexes index, indexes ++ [index]) acc rows = acc ++ rows.
Proof.
  revert acc. induction rows as [|r rows IH]; intros acc; simpl.
  - by rewrite app_nil_r.
  - by rewrite IH, <- app_assoc.
Qed.

Lemma SelectIndexBySha1_serving (b : Backend) (sha1 : string)
    (sha1b : list byte) (d : Database) :
  hex.DecodeString sha1 = (sha1b, None) →
  DB.SelectIndexBySha1 b sha1 (serving d) =
  ((default zeroIndex (head (SQL.select_by_sha1 sha1b d)), None), serving d).
Proof.
  intros Hdec. rewrite SelectIndexBySha1_agree.
  unfold Sqlite.SelectIndexBySha1. rewrite Hdec.
  unfold bind, client_QueryRow_Scan, bind, client_Query, bind, next_fault, serving.
  cbn -[SQL.select_by_sha1]. by destruct (SQL.select_by_sha1 sha1b d).
Qed.

Lemma SelectIndexByArtifactIDAndGroupID_serving (b : Backend)
    (artifactID groupID : string) (d : Database) :
  DB.SelectIndexByArtifactIDAndGroupID b artifactID groupID (serving d) =
  ((default zeroIndex
      (head (SQL.select_by_group_and_artifact groupID artifactID d)), None),
   serving d).
Proof.
  rewrite SelectIndexByArtifactIDAndGroupID_agree.
  unfold Sqlite.SelectIndexByArtifactIDAndGroupID.
  unfold bind, client_QueryRow_Scan, bind, client_Query, bind, next_fault, serving.
  cbn -[SQL.select_by_group_and_artifact].
  by destruct (SQL.select_by_group_and_artifact groupID artifactID d).
Qed.

Lemma SelectIndexesByArtifactIDAndFileType_serving (b : Backend)
    (artifactID version fileType : string) (d : Database) :
  DB.SelectIndexesByArtifactIDAndFileType b artifactID version fileType (serving d) =
  ((SQL.select_by_artifact_and_type artifactID version fileType d, None), serving d).
Proof.
  rewrite SelectIndexesByArtifactIDAndFileType_agree.
  unfold Sqlite.SelectIndexesByArtifactIDAndFileType.
  unfold bind, client_Query, bind, next_fault, serving.
  cbn -[SQL.select_by_artifact_and_type]. unfold ret.
  by rewrite append_each.
Qed.


(** ** Runs of batches *)

Lemma insert_or_ignore_artifact_keys (d : Database) (v : string * string) :
  NoDup (SQL.artifact_key <$> artifacts d) →
  NoDup (SQL.artifact_key <$> artifacts (SQL.insert_or_ignore_artifact d v)).
Proof.
  intros Hnd. destruct v as [g a].
  destruct (insert_or_ignore_artifact_cases d g a) as [[_ ->]|[Hnew ->]]; [done|].
  simpl. rewrite fmap_app. apply NoDup_app. split; [done|]. split.
  - intros k Hk Hk'%list_elem_of_singleton. simpl in Hk'. by subst k.
  - apply NoDup_singleton.
Qed.

Lemma load_keys (indexes : list Index) (d : Database) :
  NoDup (SQL.artifact_key <$> artifacts d) →
  NoDup (SQL.artifact_key <$> artifacts (load indexes d)).
Proof.
  intros Hnd. unfold load. rewrite insert_rows_artifacts.
  revert d Hnd. induction (pairs indexes) as [|v values IH]; intros d Hnd;
    cbn [foldl]; [done|].
  by apply IH, insert_or_ignore_artifact_keys.
Qed.

Lemma InsertAll_serving (b : Backend) (batches : list (list Index)) (d : Database) :
  ∃ d', InsertAll b batches (serving d) =
          (replicate (length batches) None, serving d') ∧
        extends d d' ∧
        (NoDup (SQL.artifact_key <$> artifacts d) →
         NoDup (SQL.artifact_key <$> artifacts d')) ∧
        (consistent d → consistent d').
Proof.
  revert d. induction batches as [|indexes batches IH]; intros d.
  - exists d. split; [done|]. split; [apply extends_refl | done].
  - destruct (IH (load indexes d)) as (d' & Hrun & Hext & Hkeys & Hcons).
    exists d'. cbn [InsertAll]. unfold bind.
    rewrite InsertIndexes_serving, Hrun. split; [done|]. split; [|split].
    + eapply extends_trans; [apply load_extends | exact Hext].
    + intros Hnd. by apply Hkeys, load_keys.
    + intros Hc. by apply Hcons, load_consistent.
Qed.

(** ** The claims *)

(** C2 — Loading one batch twice in a row is loading it once: neither
    call reports an error, the second one leaves the committed database
    as the first one left it, and so each of the three queries,
    [SelectIndexBySha1], [SelectIndexByArtifactIDAndGroupID] and
    [SelectIndexesByArtifactIDAndFileType], answers the same after the
    second call as after the first, whatever it is asked. *)
Theorem InsertIndexes_twice_is_once (b : Backend) (indexes : list Index)
    (d : Database) :
  let once := DB.InsertIndexes b indexes (serving d) in
  let twice := DB.InsertIndexes b indexes once.2 in
  once.1 = None ∧ twice.1 = None ∧ twice.2 = once.2 ∧
  (∀ sha1,
     DB.SelectIndexBySha1 b sha1 twice.2 = DB.SelectIndexBySha1 b sha1 once.2) ∧
  (∀ artifactID groupID,
     DB.SelectIndexByArtifactIDAndGroupID b artifactID groupID twice.2 =
     DB.SelectIndexByArtifactIDAndGroupID b artifactID groupID once.2) ∧
  (∀ artifactID version fileType,
     DB.SelectIndexesByArtifactIDAndFileType b artifactID version fileType twice.2 =
     DB.SelectIndexesByArtifactIDAndFileType b artifactID version fileType once.2).
Proof.
  cbn zeta. rewrite InsertIndexes_serving. cbn [fst snd].
  rewrite InsertIndexes_serving, load_idempotent. cbn [fst snd].
  repeat split; reflexivity.
Qed.


(** C4 — Through any run of [InsertIndexes] calls on a database whose
    [artifacts] table has one row per (artifact_id, group_id) pair, no
    call reports an error, the table still has one row per pair at the
    end, and a pair that was there keeps its row as its only row:
    batches that mention it, once or several times, add nothing for
    it. *)
Theorem artifacts_one_row_per_pair (b : Backend) (batches : list (list Index))
    (d : Database) :
  NoDup (SQL.artifact_key <$> artifacts d) →
  let '(errs, c') := InsertAll b batches (serving d) in
  length errs = length batches ∧ Forall (λ err, err = None) errs ∧
  NoDup (SQL.artifact_key <$> artifacts (store c')) ∧
  ∀ r, r ∈ artifacts d →
       filter (λ r', SQL.artifact_key r' = SQL.artifact_key r)
              (artifacts (store c')) = [r].
Proof.
  intros Hnd.
  destruct (InsertAll_serving b batches d) as (d' & -> & Hext & Hkeys & _).
  cbn [store serving]. specialize (Hkeys Hnd).
  split; [by rewrite length_replicate|]. split; [|split; [done|]].
  - apply Forall_forall. by intros err [-> _]%elem_of_replicate.
  - intros r Hr. apply (filter_unique SQL.artifact_key); [done| |done].
    destruct Hext as [_ [rest ->] _]. apply elem_of_app. by left.
Qed.


(** ** What [hex.DecodeString] accepts *)

Lemma fromHexChar_is_Some (c : ascii) :
  is_Some (hex.fromHexChar c) ↔ c ∈ hex_digits.
Proof.
  assert (bool_decide (is_Some (hex.fromHexChar c)) = bool_decide (c ∈ hex_digits))
    as Hb by (destruct c as [[] [] [] [] [] [] [] []]; vm_compute; reflexivity).
  split; intros H.
  - apply (bool_decide_unpack _). rewrite <- Hb. by apply bool_decide_pack.
  - apply (bool_decide_unpack _). rewrite Hb. by apply bool_decide_pack.
Qed.

Lemma list_pair_ind {A : Type} (P : list A → Prop) :
  P [] → (∀ x, P [x]) → (∀ x y l, P l → P (x :: y :: l)) → ∀ l, P l.
Proof.
  intros H0 H1 H2 l. cut (P l ∧ ∀ x, P (x :: l)); [by intros [? _]|].
  induction l as [|y l [IH1 IH2]]; split; auto.
Qed.

Lemma Decode_accepts (src : list ascii) :
  (hex.Decode src).2 = None ↔
  Nat.Even (length src) ∧ Forall (λ c, c ∈ hex_digits) src.
Proof.
  induction src as [|p|p q rest IH] using list_pair_ind.
  - split; [intros _; split; [by exists 0 | constructor] | done].
  - split.
    + simpl. destruct (hex.fromHexChar p); done.
    + intros [Hev _]. destruct Hev as [k Hk]. simpl in Hk. lia.
  - cbn [hex.Decode length]. rewrite Nat.Even_succ_succ, !Forall_cons.
    rewrite <- !fromHexChar_is_Some.
    destruct (hex.fromHexChar p) as [a|].
    + destruct (hex.fromHexChar q) as [b|].
      * destruct (hex.Decode rest) as [bs err]. simpl in *.
        rewrite IH. split; [intros [? ?]; eauto | tauto].
      * simpl. split; [done|]. intros (_ & _ & H%is_Some_None & _). done.
    + simpl. split; [done|]. intros (_ & H%is_Some_None & _). done.
Qed.

Lemma DecodeString_accepts (s : string) :
  (hex.DecodeString s).2 = None ↔ valid_hex s.
Proof. apply Decode_accepts. Qed.

(** C6 — [SelectIndexBySha1] never changes the committed database.  Given
    a string that is not a valid hexadecimal encoding it returns the
    zero-value record with a decode error, and the connection is not
    even used.  Given a valid encoding of a digest that no index row
    carries, it returns the zero-value record, and an error only when
    the engine failed the query: the absence of the row is not an
    error. *)
Theorem SelectIndexBySha1_malformed_or_absent (b : Backend) (sha1 : string)
    (c : Conn) :
  let '((index, err), c') := DB.SelectIndexBySha1 b sha1 c in
  store c' = store c ∧
  (¬ valid_hex sha1 →
   index = zeroIndex ∧ c' = c ∧
   ∃ e, err = Some (Errorf "sha1 decode error" e)) ∧
  (valid_hex sha1 →
   (hex.DecodeString sha1).1 ∉ i_sha1 <$> indices (store c) →
   index = zeroIndex ∧ (err = None ↔ head (faults c) ≠ Some true)).
Proof.
  rewrite SelectIndexBySha1_agree. unfold Sqlite.SelectIndexBySha1.
  pose proof (DecodeString_accepts sha1) as Hacc.
  destruct (hex.DecodeString sha1) as [sha1b [e|]] eqn:Hdec; simpl in Hacc.
  - unfold ret. split; [done|]. split.
    + intros _. eauto.
    + intros Hv%Hacc. done.
  - assert (valid_hex sha1) as Hv by (by apply Hacc).
    unfold bind, client_QueryRow_Scan, bind, client_Query, bind, next_fault.
    destruct c as [d p fs]. cbn [faults store pending].
    destruct fs as [|[] fs]; cbn -[SQL.select_by_sha1].
    + destruct (SQL.select_by_sha1 sha1b d) as [|row rows] eqn:Hsel;
        cbn; (split; [done|]); (split; [done|]); intros _ Habs.
      * done.
      * exfalso. apply Habs.
        assert (row ∈ SQL.select_by_sha1 sha1b d) as Hrow by (rewrite Hsel; by left).
        unfold SQL.select_by_sha1 in Hrow.
        apply list_elem_of_fmap in Hrow as ([i a] & _ & Hia).
        apply list_elem_of_filter in Hia as [Hs Hia]. simpl in Hs.
        apply joined_elem_of in Hia as (Hi & _). apply list_elem_of_fmap. eauto.
    + split; [done|]. split; [done|]. intros _ _. split; [done|].
      split; [done|]. intros H. by destruct H.
    + destruct (SQL.select_by_sha1 sha1b d) as [|row rows] eqn:Hsel;
        cbn; (split; [done|]); (split; [done|]); intros _ Habs.
      * done.
      * exfalso. apply Habs.
        assert (row ∈ SQL.select_by_sha1 sha1b d) as Hrow by (rewrite Hsel; by left).
        unfold SQL.select_by_sha1 in Hrow.
        apply list_elem_of_fmap in Hrow as ([i a] & _ & Hia).
        apply list_elem_of_filter in Hia as [Hs Hia]. simpl in Hs.
        apply joined_elem_of in Hia as (Hi & _). apply list_elem_of_fmap. eauto.
Qed.


(** ** [Init] and the objects that exist *)

Lemma client_Exec_cases (stmt : Database → outcome) (c : Conn) :
  (∃ e c', client_Exec stmt c = (Some e, c')) ∨
  (∃ d', stmt (store c) = Done d' ∧
         client_Exec stmt c = (None, mkConn d' (pending c) (tail (faults c)))).
Proof.
  unfold client_Exec, bind, next_fault, ret. destruct c as [d p fs].
  destruct fs as [|[] fs]; cbn; eauto; destruct (stmt d) eqn:E; eauto.
Qed.

Lemma name_taken_add (n : string) (os : list SchemaObject) (d : Database) :
  SQL.name_taken n d = true → SQL.name_taken n (SQL.add_objects os d) = true.
Proof.
  unfold SQL.name_taken. rewrite !bool_decide_eq_true. simpl.
  rewrite fmap_app, elem_of_app. auto.
Qed.

Lemma has_table_add (n : string) (os : list SchemaObject) (d : Database) :
  SQL.has_table n d = true → SQL.has_table n (SQL.add_objects os d) = true.
Proof.
  unfold SQL.has_table. rewrite !bool_decide_eq_true. simpl.
  rewrite elem_of_app. auto.
Qed.

Lemma sqlite_create_table_Done (n : string) (d d' : Database) :
  SQL.sqlite_create_table n d = Done d' →
  SQL.name_taken n d = false ∧
  ∀ m, SQL.name_taken m d = true → SQL.name_taken m d' = true.
Proof.
  unfold SQL.sqlite_create_table. destruct (SQL.name_taken n d); [done|].
  intros [= <-]. split; [done|]. intros m. apply name_taken_add.
Qed.

Lemma sqlite_create_index_Done (n table : string) (unique : bool)
    (columns : list string) (duplicates : bool) (d d' : Database) :
  SQL.sqlite_create_index n table unique columns duplicates d = Done d' →
  SQL.name_taken n d = false ∧
  ∀ m, SQL.name_taken m d = true → SQL.name_taken m d' = true.
Proof.
  unfold SQL.sqlite_create_index. destruct (SQL.name_taken n d); [done|].
  destruct (negb _); [done|]. destruct (_ && _); [done|].
  intros [= <-]. split; [done|]. intros m. apply name_taken_add.
Qed.

(** One statement of [Sqlite.Init]: an error ends the call, a success
    shows that the name was free and keeps the names that were taken. *)
Ltac init_step :=
  unfold bind at 1;
  match goal with
  | Hn : SQL.name_taken _ (store ?c) = true |- context [client_Exec ?stmt ?c] =>
      let e := fresh "e" in
      let c' := fresh "c'" in
      let d' := fresh "d'" in
      let Hd' := fresh "Hd'" in
      let Hfree := fresh "Hfree" in
      let Hkeep := fresh "Hkeep" in
      destruct (client_Exec_cases stmt c) as [(e & c' & ->)|(d' & Hd' & ->)];
      [ done
      | first [ apply sqlite_create_table_Done in Hd'
              | apply sqlite_create_index_Done in Hd' ];
        destruct Hd' as [Hfree Hkeep];
        first [ congruence
              | apply Hkeep in Hn;
                change d' with (store (mkConn d' (pending c) (tail (faults c)))) in Hn ] ]
  end.

Lemma Sqlite_Init_name_taken (c : Conn) (n : string) :
  n ∈ sqlite_names → SQL.name_taken n (store c) = true →
  (Sqlite.Init c).1 ≠ None.
Proof.
  intros Hin Hn. unfold Sqlite.Init, sqlite_names in *.
  repeat (apply elem_of_cons in Hin as [->|Hin]);
    [ .. | by apply elem_of_nil in Hin ].
  all: repeat init_step.
Qed.



(** C10 — When two or more index rows belong to the artifact of one
    (group_id, artifact_id) pair, [SelectIndexByArtifactIDAndGroupID]
    asked for that pair returns no error and one record: the columns of
    one index row of the table and of an artifact row of that pair that
    owns it.  Which of the rows it is is not part of the statement. *)
Theorem SelectIndexByArtifactIDAndGroupID_one_of_several (b : Backend)
    (d : Database) (artifactID groupID : string) (a : ArtifactRow)
    (i1 i2 : IndexRow) :
  a ∈ artifacts d → a_group_id a = groupID → a_artifact_id a = artifactID →
  i1 ∈ indices d → i2 ∈ indices d → i1 ≠ i2 →
  i_artifact_id i1 = Some (a_id a) → i_artifact_id i2 = Some (a_id a) →
  ∃ i a',
    DB.SelectIndexByArtifactIDAndGroupID b artifactID groupID (serving d) =
      ((SQL.columns a' i, None), serving d) ∧
    i ∈ indices d ∧ a' ∈ artifacts d ∧ i_artifact_id i = Some (a_id a') ∧
    a_group_id a' = groupID ∧ a_artifact_id a' = artifactID.
Proof.
  intros Ha Hg Hart Hi1 _ _ Hid1 _.
  rewrite SelectIndexByArtifactIDAndGroupID_serving.
  assert (SQL.columns a i1 ∈ SQL.select_by_group_and_artifact groupID artifactID d)
    as Hmem.
  { unfold SQL.select_by_group_and_artifact. apply list_elem_of_fmap.
    exists (i1, a). split; [done|]. apply list_elem_of_filter. split; [done|].
    by apply joined_elem_of. }
  destruct (SQL.select_by_group_and_artifact groupID artifactID d)
    as [|row rows] eqn:Hsel; [by apply elem_of_nil in Hmem|].
  assert (row ∈ SQL.select_by_group_and_artifact groupID artifactID d) as Hrow
    by (rewrite Hsel; by left).
  unfold SQL.select_by_group_and_artifact in Hrow.
  apply list_elem_of_fmap in Hrow as ([i a'] & -> & Hia).
  apply list_elem_of_filter in Hia as [[Hg' Ha'] Hia]. simpl in Hg', Ha'.
  apply joined_elem_of in Hia as (Hi & Hin & Hid).
  exists i, a'. by repeat split.
Qed.


(** ** Queries after a batch *)











(** ** Two batches with one digest *)




(** ** Writing a record and reading it back *)





(** ** [build]: what [Reset] removes and what [New] opens *)

Lemma append_assoc (a b c : string) : (a +:+ b) +:+ c = a +:+ (b +:+ c).
Proof.
  induction a as [|x a IH]; [done|].
  change (String x ((a +:+ b) +:+ c) = String x (a +:+ (b +:+ c))).
  by rewrite IH.
Qed.

Lemma append_cancel (a s1 s2 : string) : a +:+ s1 = a +:+ s2 → s1 = s2.
Proof.
  induction a as [|x a IH]; [done|].
  change (String x (a +:+ s1) = String x (a +:+ s2) → s1 = s2).
  intros [= H]. by apply IH.
Qed.

Lemma prefix_append (a s1 s2 : string) :
  String.prefix (a +:+ s1) (a +:+ s2) = String.prefix s1 s2.
Proof.
  induction a as [|x a IH]; [done|].
  change (String.prefix (String x (a +:+ s1)) (String x (a +:+ s2)) =
          String.prefix s1 s2).
  simpl. by destruct (ascii_dec x x).
Qed.

Lemma path_of_db_dir (cacheDir : string) :
  cacheDir ≠ "" →
  path cacheDir = cacheDir +:+ "/trivy-java.db" ∧
  path (filepath_Join cacheDir "db") = cacheDir +:+ "/db/trivy-java.db".
Proof.
  intros Hne. unfold path, filepath_Join, dbFileName.
  rewrite !(bool_decide_eq_false_2 (cacheDir = "")) by done.
  change (bool_decide ("db" = "")) with false.
  change (bool_decide ("trivy-java.db" = "")) with false.
  cbv iota. split; [done|].
  rewrite bool_decide_eq_false_2.
  - by rewrite !append_assoc.
  - destruct cacheDir; [done | discriminate].
Qed.

(** Whatever the cache directory, [Reset] leaves alone the path of the
    database file that [New] computes for the directory it is given by
    [build]. *)
Lemma Reset_spares_db_dir (cacheDir : string) (w : World) :
  files (Reset cacheDir w).2 !! path (filepath_Join cacheDir "db") =
  files w !! path (filepath_Join cacheDir "db").
Proof.
  unfold Reset, os_RemoveAll. cbn [snd files].
  destruct (files w !! path (filepath_Join cacheDir "db")) as [x|] eqn:Hx.
  - apply map_lookup_filter_Some_2; [done|]. cbn [fst].
    destruct (decide (cacheDir = "")) as [->|Hne]; [by vm_compute|].
    destruct (path_of_db_dir cacheDir Hne) as [-> ->]. split.
    + intros H%append_cancel. discriminate.
    + by rewrite append_assoc, prefix_append.
  - apply map_lookup_filter_None_2. by left.
Qed.


(** C3 — The build command run twice with the database at the path that
    [db.New] computes: [Reset] removes [<cache-dir>/trivy-java.db], the
    engine opens the file given by [--db-path] (the server given by
    [--db-connect-url]), which nothing has wiped.  With SQLite the
    second build fails in [Init] on the table of the first build, and
    the old database stays in the file; with MySQL [Init] succeeds and
    the build goes on with the rows of the first build in place.  The
    build does not start from an empty database. *)
Theorem build_does_not_wipe
    (builder_Build : string → Backend → M (option error)) :
  (let '(err, w') := buildCmd_RunE builder_Build cache_dir db_path "" host in
   err = Some (Errorf "db init error"
                 (Errorf "unable to create 'artifacts' table"
                    (EngineError "table artifacts already exists"))) ∧
   files w' !! db_path = Some (DatabaseFile earlier)) ∧
  (let '(err, w') := buildCmd_RunE idle_Build cache_dir "" connect_url host in
   err = None ∧ servers w' !! connect_url = Some earlier).
Proof. split; vm_compute; split; reflexivity. Qed.


(** ** The claims on the sample data *)


Lemma consistent_earlier : consistent earlier.
Proof.
  constructor; simpl.
  - apply NoDup_singleton.
  - apply NoDup_singleton.
  - apply (bool_decide_unpack _). by vm_compute.
  - intros i Hi. repeat (apply elem_of_cons in Hi as [->|Hi]); [done | done |].
    by apply elem_of_nil in Hi.
Qed.


(** C4 on the sample data: the pair of [earlier] comes again, twice in
    one batch and once in the next. *)
Lemma artifacts_one_row_per_pair_witness :
  NoDup (SQL.artifact_key <$> artifacts earlier) ∧
  NoDup (SQL.artifact_key <$>
           artifacts (store (InsertAll MysqlBackend
                               [[lib_example; lib_example]; [lib_example_2; lib_other]]
                               (serving earlier)).2)).
Proof.
  assert (NoDup (SQL.artifact_key <$> artifacts earlier)) as H
    by apply NoDup_singleton.
  split; [exact H|].
  pose proof (artifacts_one_row_per_pair MysqlBackend
                [[lib_example; lib_example]; [lib_example_2; lib_other]]
                earlier H) as Hthm.
  destruct (InsertAll _ _ _) as [errs c']. by destruct Hthm as (_ & _ & Hnd & _).
Defined.


(** C6 on the sample data: a string that is no hexadecimal encoding. *)
Lemma SelectIndexBySha1_malformed_or_absent_witness :
  ¬ valid_hex "01zz" ∧
  (DB.SelectIndexBySha1 MysqlBackend "01zz" (serving earlier)).1.1 = zeroIndex.
Proof.
  assert (¬ valid_hex "01zz") as H.
  { rewrite <- DecodeString_accepts. by vm_compute. }
  split; [exact H|].
  pose proof (SelectIndexBySha1_malformed_or_absent MysqlBackend "01zz"
                (serving earlier)) as Hthm.
  destruct (DB.SelectIndexBySha1 _ _ _) as [[index err] c'].
  destruct Hthm as (_ & Hbad & _). by destruct (Hbad H) as (-> & _).
Defined.






(** C10 on the sample data: the two releases of [earlier]. *)
Lemma SelectIndexByArtifactIDAndGroupID_one_of_several_witness :
  mkIndexRow (Some 1%Z) "0.9" digest_b "jar" ≠ mkIndexRow (Some 1%Z) "0.9" [x00] "war" ∧
  ∃ i a',
    DB.SelectIndexByArtifactIDAndGroupID MysqlBackend "lib" "org.example"
      (serving earlier) = ((SQL.columns a' i, None), serving earlier) ∧
    i ∈ indices earlier ∧ a' ∈ artifacts earlier ∧
    i_artifact_id i = Some (a_id a') ∧
    a_group_id a' = "org.example" ∧ a_artifact_id a' = "lib".
Proof.
  assert (mkIndexRow (Some 1%Z) "0.9" digest_b "jar" ≠
          mkIndexRow (Some 1%Z) "0.9" [x00] "war") as Hne by discriminate.
  split; [exact Hne|].
  apply (SelectIndexByArtifactIDAndGroupID_one_of_several MysqlBackend earlier
           "lib" "org.example" (mkArtifactRow 1 "org.example" "lib")
           (mkIndexRow (Some 1%Z) "0.9" digest_b "jar")
           (mkIndexRow (Some 1%Z) "0.9" [x00] "war")).
  - by left.
  - reflexivity.
  - reflexivity.
  - by left.
  - right. by left.
  - exact Hne.
  - reflexivity.
  - reflexivity.
Defined.


(** * Further properties of the storage engine *)

(** ** [InsertIndexes] and the failures of the engine *)

Lemma take_succ_drop {A : Type} (n : nat) (l : list A) :
  take (S n) l = take n l ++ match drop n l with [] => [] | f :: _ => [f] end.
Proof.
  revert l. induction n as [|n IH]; intros [|x l]; simpl; try done.
  f_equal. apply IH.
Qed.

(** The loop over the records, with the answers of the engine: it
    goes through when the engine serves one call per record, and stops
    with an error at the first call that the engine fails. *)
Lemma insertEach_faults (indexes : list Index) (s d : Database) (fs : list bool) :
  ((true ∉ take (length indexes) fs) ∧
   Sqlite.insertEach indexes (mkConn s (Some d) fs) =
     (None, mkConn s (Some (foldl insert_index_row d indexes))
              (drop (length indexes) fs))) ∨
  (true ∈ take (length indexes) fs ∧
   ∃ e d' fs', Sqlite.insertEach indexes (mkConn s (Some d) fs) =
               (Some e, mkConn s (Some d') fs')).
Proof.
  revert d fs. induction indexes as [|x indexes IH]; intros d fs.
  - left. split; [apply not_elem_of_nil | by rewrite drop_0].
  - cbn [Sqlite.insertEach foldl length]. unfold bind, tx_Exec, bind, next_fault, ret.
    destruct fs as [|[] fs]; cbn [faults store pending take drop];
      rewrite ?sqlite_insert_index_Done.
    + destruct (IH (insert_index_row d x) []) as [[Hno ->]|[Hyes _]].
      * left. split; [apply not_elem_of_nil | by rewrite !drop_nil].
      * rewrite take_nil in Hyes. by apply elem_of_nil in Hyes.
    + right. split; [by left | eauto].
    + destruct (IH (insert_index_row d x) fs)
        as [[Hno ->]|[Hyes (e & d' & fs' & ->)]].
      * left. split; [|done]. by intros [?|?]%elem_of_cons.
      * right. split; [by right | eauto].
Qed.

(** X1 — [InsertIndexes] with a batch of [n > 0] records makes [n + 3]
    calls to the engine (begin, the artifacts, one per record, commit)
    and returns an error exactly when the engine fails one of them:
    whatever the database holds, rows that are already there are never
    the cause of an error. *)
Theorem InsertIndexes_fails_only_with_the_engine (b : Backend)
    (indexes : list Index) (d : Database) (fs : list bool) :
  indexes ≠ [] →
  (DB.InsertIndexes b indexes (mkConn d None fs)).1 = None ↔
  true ∉ take (length indexes + 3) fs.
Proof.
  intros Hne. rewrite InsertIndexes_agree. unfold Sqlite.InsertIndexes.
  destruct indexes as [|x indexes]; [done|]. cbn [length Nat.eqb].
  set (xs := x :: indexes). change (S (length indexes)) with (length xs).
  replace (length xs + 3) with (S (S (S (length xs)))) by lia.
  unfold bind at 1. unfold client_Begin, bind, next_fault, ret.
  destruct fs as [|[] fs];
    cbn -[xs tx_Exec Sqlite.insertEach tx_Commit tx_Rollback defer
          Sqlite.insertArtifacts take].
  - unfold defer, bind, Sqlite.insertArtifacts, bind.
    rewrite (tx_Exec_serving (SQL.insert_artifacts _) d d _ eq_refl).
    unfold ret. cbn beta iota. rewrite insertEach_serving. cbn.
    split; [intros _; apply not_elem_of_nil | done].
  - cbn. split; [done|]. intros H. exfalso. apply H. by left.
  - unfold defer, bind, Sqlite.insertArtifacts, bind, tx_Exec, bind, next_fault, ret.
    destruct fs as [|[] fs];
      cbn -[xs Sqlite.insertEach tx_Commit tx_Rollback take].
    + rewrite insertEach_serving. cbn -[xs take].
      split; [intros _; cbn; by intros [?|?%elem_of_nil]%elem_of_cons | done].
    + split; [done|]. intros H. exfalso. apply H. cbn. right. by left.
    + destruct (insertEach_faults xs d
                  (foldl SQL.insert_or_ignore_artifact d
                     ((λ index, (GroupID index, ArtifactID index)) <$> xs)) fs)
        as [[Hno ->]|[Hyes (e & d' & fs' & ->)]].
      * unfold tx_Commit, next_fault.
        cbn -[xs take drop]. cbn [take]. rewrite (take_succ_drop (length xs) fs).
        destruct (drop (length xs) fs) as [|[] rest] eqn:Hdrop; cbn -[xs take].
        -- rewrite app_nil_r. split; [intros _|done].
           by intros [?|[?|?]%elem_of_cons]%elem_of_cons.
        -- split; [done|]. intros H. exfalso. apply H.
           do 2 right. apply elem_of_app. right. by left.
        -- split; [intros _|done].
           intros [?|[?|[?|[?|?%elem_of_nil]%elem_of_cons]%elem_of_app]%elem_of_cons]%elem_of_cons;
             done.
      * cbn -[xs take]. split; [done|]. intros H. exfalso. apply H.
        cbn [take]. do 2 right. rewrite take_succ_drop. apply elem_of_app. by left.
Qed.

(** X2 — [InsertIndexes] only adds: whatever the engine does, the
    catalog is the one before the call and the rows of both tables
    before the call are still there, unchanged and in place, at the
    head of the tables. *)
Theorem InsertIndexes_only_adds (b : Backend) (indexes : list Index) (c : Conn) :
  pending c = None →
  extends (store c) (store (DB.InsertIndexes b indexes c).2).
Proof.
  intros Hp. rewrite InsertIndexes_agree. destruct c as [d p fs].
  simpl in Hp. subst p.
  destruct (Sqlite_InsertIndexes_cases indexes d fs) as [(e & fs' & ->)|(fs' & ->)];
    cbn [snd store].
  - apply extends_refl.
  - apply load_extends.
Qed.

(** X3 — [InsertIndexes] keeps the constraints of the schema: ids of
    artifacts are distinct, there is one artifact per pair, one index
    row per sha1, and the artifact_id of an index row is NULL or the id
    of an artifact; whatever the engine does. *)
Theorem InsertIndexes_keeps_constraints (b : Backend) (indexes : list Index)
    (c : Conn) :
  pending c = None → consistent (store c) →
  consistent (store (DB.InsertIndexes b indexes c).2).
Proof.
  intros Hp Hc. rewrite InsertIndexes_agree. destruct c as [d p fs].
  simpl in Hp, Hc. subst p.
  destruct (Sqlite_InsertIndexes_cases indexes d fs) as [(e & fs' & ->)|(fs' & ->)];
    cbn [snd store]; [done | by apply load_consistent].
Qed.


(** ** What a batch leaves in the tables *)



(** ** One batch or two *)

Lemma select_artifact_id_app (g a : string) (d : Database)
    (more : list ArtifactRow) :
  (a, g) ∈ SQL.artifact_key <$> artifacts d →
  SQL.select_artifact_id g a (set_artifacts (artifacts d ++ more) d) =
  SQL.select_artifact_id g a d.
Proof.
  intros (r & Hkey & Hin)%list_elem_of_fmap.
  unfold SQL.select_artifact_id. cbn [artifacts set_artifacts].
  rewrite filter_app.
  destruct (filter _ (artifacts d)) as [|r0 rest] eqn:Hf; [|done].
  exfalso. eapply (filter_nil_not_elem_of _ _ r); [exact Hf| |exact Hin].
  unfold SQL.artifact_key in Hkey. by injection Hkey as -> ->.
Qed.

(** An index row can be inserted before or after an artifact that is
    not its own: its own artifact is there already. *)
Lemma insert_index_row_after_artifact (e : Database) (v : string * string)
    (x : Index) :
  (ArtifactID x, GroupID x) ∈ SQL.artifact_key <$> artifacts e →
  insert_index_row (SQL.insert_or_ignore_artifact e v) x =
  SQL.insert_or_ignore_artifact (insert_index_row e x) v.
Proof.
  intros Hkey. destruct v as [g a].
  destruct (insert_or_ignore_artifact_cases e g a) as [[Hold ->]|[Hnew ->]];
    destruct (insert_or_ignore_artifact_cases (insert_index_row e x) g a)
      as [[Hold' ->]|[Hnew' ->]];
    rewrite ?insert_index_row_artifacts in *; try done.
  unfold insert_index_row, SQL.sha1_taken. cbn [indices set_artifacts].
  destruct (bool_decide (SHA1 x ∈ i_sha1 <$> indices e)); [done|].
  unfold SQL.new_index_row. rewrite select_artifact_id_app by done.
  reflexivity.
Qed.

Lemma insert_index_row_after_artifacts (e : Database)
    (values : list (string * string)) (x : Index) :
  (ArtifactID x, GroupID x) ∈ SQL.artifact_key <$> artifacts e →
  insert_index_row (foldl SQL.insert_or_ignore_artifact e values) x =
  foldl SQL.insert_or_ignore_artifact (insert_index_row e x) values.
Proof.
  revert e. induction values as [|v values IH]; intros e Hkey; cbn [foldl]; [done|].
  rewrite IH.
  - by rewrite insert_index_row_after_artifact.
  - eapply key_present_extends; [apply insert_or_ignore_artifact_extends | done].
Qed.

Lemma insert_rows_after_artifacts (e : Database)
    (values : list (string * string)) (indexes : list Index) :
  (∀ x, x ∈ indexes →
        (ArtifactID x, GroupID x) ∈ SQL.artifact_key <$> artifacts e) →
  foldl insert_index_row (foldl SQL.insert_or_ignore_artifact e values) indexes =
  foldl SQL.insert_or_ignore_artifact (foldl insert_index_row e indexes) values.
Proof.
  revert e. induction indexes as [|x indexes IH]; intros e Hkeys; cbn [foldl]; [done|].
  rewrite insert_index_row_after_artifacts by (apply Hkeys; by left).
  apply IH. intros y Hy. rewrite insert_index_row_artifacts. apply Hkeys. by right.
Qed.

(** X5 — Cutting a batch in two does not change what is loaded: two
    calls of [InsertIndexes], one after the other, leave the database
    that one call with the two batches put together leaves. *)
Theorem InsertIndexes_in_two_calls (b : Backend) (B1 B2 : list Index)
    (d : Database) :
  (DB.InsertIndexes b B2 (DB.InsertIndexes b B1 (serving d)).2).2 =
  (DB.InsertIndexes b (B1 ++ B2) (serving d)).2.
Proof.
  rewrite !InsertIndexes_serving. cbn [snd]. rewrite InsertIndexes_serving.
  cbn [snd]. f_equal. unfold load, pairs.
  rewrite fmap_app, !foldl_app.
  rewrite (insert_rows_after_artifacts
             (foldl SQL.insert_or_ignore_artifact d _) _ B1); [done|].
  intros x Hx. apply insert_artifacts_present.
  apply list_elem_of_fmap. by exists x.
Qed.


(** ** The queries *)

Lemma NoDup_fmap_eq {A B : Type} (f : A → B) (l : list A) (x y : A) :
  NoDup (f <$> l) → x ∈ l → y ∈ l → f x = f y → x = y.
Proof.
  induction l as [|z l IH]; [by intros _ ?%elem_of_nil|].
  rewrite fmap_cons, NoDup_cons. intros [Hz Hnd] Hx Hy Hf.
  apply elem_of_cons in Hx as [->|Hx]; apply elem_of_cons in Hy as [->|Hy].
  - done.
  - exfalso. apply Hz. rewrite Hf. apply list_elem_of_fmap. eauto.
  - exfalso. apply Hz. rewrite <- Hf. apply list_elem_of_fmap. eauto.
  - by apply IH.
Qed.


(** X6 — In a database that satisfies its constraints,
    [SelectIndexBySha1] with the hexadecimal form of the sha1 of an
    index row that has its artifact returns, without an error, the
    coordinates of that artifact with the version, sha1 and archive
    type of that row. *)
Theorem SelectIndexBySha1_finds_the_row (b : Backend) (d : Database)
    (i : IndexRow) (a : ArtifactRow) :
  consistent d → i ∈ indices d → a ∈ artifacts d →
  i_artifact_id i = Some (a_id a) →
  DB.SelectIndexBySha1 b (hex.EncodeToString (i_sha1 i)) (serving d) =
  ((SQL.columns a i, None), serving d).
Proof.
  intros Hc Hi Ha Hid.
  rewrite (SelectIndexBySha1_serving b _ (i_sha1 i))
    by apply DecodeString_EncodeToString.
  assert (SQL.columns a i ∈ SQL.select_by_sha1 (i_sha1 i) d) as Hmem.
  { unfold SQL.select_by_sha1. apply list_elem_of_fmap. exists (i, a).
    split; [done|]. apply list_elem_of_filter. split; [done|].
    by apply joined_elem_of. }
  destruct (SQL.select_by_sha1 (i_sha1 i) d) as [|row rows] eqn:Hsel;
    [by apply elem_of_nil in Hmem|].
  assert (row ∈ SQL.select_by_sha1 (i_sha1 i) d) as Hrow by (rewrite Hsel; by left).
  unfold SQL.select_by_sha1 in Hrow.
  apply list_elem_of_fmap in Hrow as ([i' a'] & -> & Hia).
  apply list_elem_of_filter in Hia as [Hs Hia]. simpl in Hs.
  apply joined_elem_of in Hia as (Hi' & Ha' & Hid').
  assert (i' = i) as ->
    by (by apply (NoDup_fmap_eq i_sha1 (indices d)); [apply Hc|..]).
  assert (a' = a) as ->.
  { apply (NoDup_fmap_eq a_id (artifacts d)); [apply Hc|done|done|]. congruence. }
  done.
Qed.



Lemma NoDup_bind_elem_of {A B : Type} (f : A → list B) (l : list A) (x : A) :
  NoDup (l ≫= f) → x ∈ l → NoDup (f x).
Proof.
  induction l as [|y l IH]; [by intros _ ?%elem_of_nil|].
  rewrite bind_cons, NoDup_app. intros (Hy & _ & Hl) [->|Hx]%elem_of_cons; auto.
Qed.

(** X9 — [SelectIndexesByArtifactIDAndFileType] returns a row once for
    each row of its artifact that has the given version and archive
    type: when an artifact of the given artifact id owns two such rows,
    the result holds the same record more than once. *)
Theorem SelectIndexesByArtifactIDAndFileType_repeats (b : Backend)
    (d : Database) (artifactID version fileType : string) (a : ArtifactRow)
    (j1 j2 : IndexRow) :
  a ∈ artifacts d → a_artifact_id a = artifactID →
  j1 ∈ indices d → j2 ∈ indices d → j1 ≠ j2 →
  i_artifact_id j1 = Some (a_id a) → i_artifact_id j2 = Some (a_id a) →
  i_version j1 = version → i_version j2 = version →
  i_archive_type j1 = fileType → i_archive_type j2 = fileType →
  ¬ NoDup (DB.SelectIndexesByArtifactIDAndFileType b artifactID version fileType
             (serving d)).1.1.
Proof.
  intros Ha Hart Hj1 Hj2 Hne Hid1 Hid2 Hv1 Hv2 Ht1 Ht2.
  rewrite SelectIndexesByArtifactIDAndFileType_serving. cbn [fst].
  unfold SQL.select_by_artifact_and_type, SQL.f_id. intros Hnd.
  apply (NoDup_bind_elem_of _ _ j1) in Hnd; [|done].
  apply NoDup_fmap_1 in Hnd.
  apply Hne.
  set (P := λ ia : IndexRow * ArtifactRow,
              a_artifact_id ia.2 = artifactID ∧ i_version ia.1 = version ∧
              i_archive_type ia.1 = fileType) in *.
  assert ((j1, a) ∈ filter P (SQL.joined d)) as H1.
  { apply list_elem_of_filter. split; [done | by apply joined_elem_of]. }
  assert ((j2, a) ∈ filter P (SQL.joined d)) as H2.
  { apply list_elem_of_filter. split; [done | by apply joined_elem_of]. }
  revert Hnd H1 H2. generalize (filter P (SQL.joined d)). intros L.
  induction L as [|[j a'] L IH]; [by intros _ ?%elem_of_nil|].
  rewrite fmap_cons. cbn [snd].
  destruct (decide (i_artifact_id j1 = Some (a_id a'))) as [Hyes|Hno].
  - rewrite filter_cons_True by done. rewrite NoDup_cons. intros [Hnot Hnd] H1 H2.
    assert (∀ j', (j', a) ∈ L → a' = a → False) as Hclash.
    { intros j' Hj' ->. apply Hnot. apply list_elem_of_filter. split; [done|].
      apply list_elem_of_fmap. by exists (j', a). }
    apply elem_of_cons in H1 as [E1|H1]; apply elem_of_cons in H2 as [E2|H2].
    + congruence.
    + exfalso. injection E1 as <- <-. by eapply Hclash.
    + exfalso. injection E2 as <- <-. by eapply Hclash.
    + by apply IH.
  - rewrite filter_cons_False by done. intros Hnd H1 H2.
    apply elem_of_cons in H1 as [E1|H1];
      [injection E1 as <- <-; by rewrite Hid1 in Hno|].
    apply elem_of_cons in H2 as [E2|H2];
      [injection E2 as <- <-; by rewrite Hid1 in Hno|].
    by apply IH.
Qed.


(** ** [Init], once and twice *)

Lemma client_Exec_serving (stmt : Database → outcome) (d d' : Database) :
  stmt d = Done d' → client_Exec stmt (serving d) = (None, serving d').
Proof. intros E. unfold client_Exec, bind, next_fault, ret, serving. cbn. by rewrite E. Qed.

Lemma client_Exec_refused (stmt : Database → outcome) (d : Database) (e : error) :
  stmt d = Failed e → client_Exec stmt (serving d) = (Some e, serving d).
Proof. intros E. unfold client_Exec, bind, next_fault, ret, serving. cbn. by rewrite E. Qed.

Lemma name_taken_add_objects (n : string) (os : list SchemaObject) (d : Database) :
  SQL.name_taken n (SQL.add_objects os d) =
  SQL.name_taken n d || bool_decide (n ∈ SQL.object_name <$> os).
Proof.
  unfold SQL.name_taken. cbn [catalog SQL.add_objects set_catalog].
  apply eq_true_iff_eq. rewrite orb_true_iff, !bool_decide_eq_true.
  by rewrite fmap_app, elem_of_app.
Qed.





(** X11 — [Sqlite.Init] runs its statements one by one, outside a
    transaction: when the table [artifacts] can be created and
    [indices] cannot, the call returns the error of [indices] and the
    table [artifacts] stays in the database, so that a second call
    fails on [artifacts]. *)
Theorem Sqlite_Init_leaves_a_part (d : Database) :
  SQL.name_taken "artifacts" d = false → SQL.name_taken "indices" d = true →
  Sqlite.Init (serving d) =
    (Some (Errorf "unable to create 'indices' table"
             (EngineError "table indices already exists")),
     serving (SQL.add_objects [TableObj "artifacts"] d)) ∧
  (Sqlite.Init (Sqlite.Init (serving d)).2).1 =
    Some (Errorf "unable to create 'artifacts' table"
            (EngineError "table artifacts already exists")).
Proof.
  intros F1 T2.
  assert (Sqlite.Init (serving d) =
    (Some (Errorf "unable to create 'indices' table"
             (EngineError "table indices already exists")),
     serving (SQL.add_objects [TableObj "artifacts"] d))) as Hfirst.
  { unfold Sqlite.Init. unfold bind at 1.
    rewrite (client_Exec_serving _ d (SQL.add_objects [TableObj "artifacts"] d)).
    2: { unfold SQL.sqlite_create_artifacts, SQL.sqlite_create_table. by rewrite F1. }
    unfold bind at 1.
    rewrite (client_Exec_refused _ _ (EngineError "table indices already exists"));
      [done|].
    unfold SQL.sqlite_create_indices, SQL.sqlite_create_table.
    by rewrite name_taken_add_objects, T2. }
  split; [done|]. rewrite Hfirst. cbn [snd].
  unfold Sqlite.Init. unfold bind at 1.
  rewrite (client_Exec_refused _ _ (EngineError "table artifacts already exists"));
    [done|].
  unfold SQL.sqlite_create_artifacts, SQL.sqlite_create_table.
  rewrite name_taken_add_objects, F1. by cbn.
Qed.



Lemma sqlite_create_table_taken (n : string) (d d' : Database) :
  SQL.sqlite_create_table n d = Done d' → SQL.name_taken n d' = true.
Proof.
  unfold SQL.sqlite_create_table. destruct (SQL.name_taken n d); [done|].
  intros [= <-]. rewrite name_taken_add_objects. apply orb_true_iff. right.
  apply bool_decide_eq_true. by left.
Qed.

Lemma Sqlite_Init_creates (c c' : Conn) :
  Sqlite.Init c = (None, c') → SQL.name_taken "artifacts" (store c') = true.
Proof.
  unfold Sqlite.Init.
  unfold bind at 1.
  destruct (client_Exec_cases SQL.sqlite_create_artifacts c)
    as [(e & c0 & ->)|(d1 & Hd1 & ->)]; [done|].
  apply sqlite_create_table_taken in Hd1.
  set (c1 := mkConn d1 (pending c) (tail (faults c))).
  change d1 with (store c1) in Hd1. clearbody c1.
  unfold bind at 1.
  destruct (client_Exec_cases SQL.sqlite_create_indices c1)
    as [(e & c0 & ->)|(d2 & Hd2 & ->)]; [done|].
  apply sqlite_create_table_Done in Hd2 as [_ Hkeep]. apply Hkeep in Hd1.
  set (c2 := mkConn d2 (pending c1) (tail (faults c1))).
  change d2 with (store c2) in Hd1. clearbody c2. clear Hkeep.
  unfold bind at 1.
  destruct (client_Exec_cases SQL.sqlite_create_artifacts_idx c2)
    as [(e & c0 & ->)|(d3 & Hd3 & ->)]; [done|].
  apply sqlite_create_index_Done in Hd3 as [_ Hkeep]. apply Hkeep in Hd1.
  set (c3 := mkConn d3 (pending c2) (tail (faults c2))).
  change d3 with (store c3) in Hd1. clearbody c3. clear Hkeep.
  unfold bind at 1.
  destruct (client_Exec_cases SQL.sqlite_create_indices_artifact_idx c3)
    as [(e & c0 & ->)|(d4 & Hd4 & ->)]; [done|].
  apply sqlite_create_index_Done in Hd4 as [_ Hkeep]. apply Hkeep in Hd1.
  set (c4 := mkConn d4 (pending c3) (tail (faults c3))).
  change d4 with (store c4) in Hd1. clearbody c4. clear Hkeep.
  unfold bind at 1.
  destruct (client_Exec_cases SQL.sqlite_create_indices_sha1_idx c4)
    as [(e & c0 & ->)|(d5 & Hd5 & ->)]; [done|].
  apply sqlite_create_index_Done in Hd5 as [_ Hkeep]. apply Hkeep in Hd1.
  unfold ret. intros [= <-]. exact Hd1.
Qed.

(** X13 — [Sqlite.Init] cannot be called again: whatever the engine
    does, after a call that returned no error every further call on
    that connection returns an error. *)
Theorem Sqlite_Init_again (c : Conn) :
  (Sqlite.Init c).1 = None → (Sqlite.Init (Sqlite.Init c).2).1 ≠ None.
Proof.
  destruct (Sqlite.Init c) as [[e|] c'] eqn:E; [done|]. intros _. cbn [snd].
  apply (Sqlite_Init_name_taken _ "artifacts"); [by left|].
  by apply (Sqlite_Init_creates c).
Qed.


(** ** [New] and [build] on the files *)

Lemma list_ascii_of_string_append (a b : string) :
  list_ascii_of_string (a +:+ b) = list_ascii_of_string a ++ list_ascii_of_string b.
Proof.
  induction a as [|x a IH]; [done|].
  change (x :: list_ascii_of_string (a +:+ b) =
          x :: (list_ascii_of_string a ++ list_ascii_of_string b)).
  by rewrite IH.
Qed.

Lemma before_last_slash_file (cs : list ascii) :
  before_last_slash (cs ++ list_ascii_of_string "/trivy-java.db") = Some cs.
Proof.
  induction cs as [|c cs IH]; [by vm_compute|].
  change (before_last_slash (c :: (cs ++ list_ascii_of_string "/trivy-java.db")) =
          Some (c :: cs)).
  cbn [before_last_slash]. by rewrite IH.
Qed.

(** The directory of the database file of a directory is that
    directory. *)
Lemma filepath_Dir_path (dir : string) :
  dir ≠ "" → filepath_Dir (path dir) = dir.
Proof.
  intros Hne. unfold path, filepath_Join, dbFileName.
  rewrite (bool_decide_eq_false_2 (dir = "")) by done.
  change (bool_decide ("trivy-java.db" = "")) with false. cbv iota.
  unfold filepath_Dir.
  change ("/" +:+ "trivy-java.db") with "/trivy-java.db".
  rewrite list_ascii_of_string_append, before_last_slash_file.
  destruct dir as [|x dir]; [done|].
  cbn [list_ascii_of_string]. change (String x (string_of_list_ascii
    (list_ascii_of_string dir)) = String x dir).
  by rewrite string_of_list_ascii_of_string.
Qed.

Lemma Join_db_not_empty (cacheDir : string) : filepath_Join cacheDir "db" ≠ "".
Proof.
  unfold filepath_Join. case_bool_decide as H; [done|].
  change (bool_decide ("db" = "")) with false. cbv iota.
  destruct cacheDir; [done | discriminate].
Qed.

Lemma Join_db_not_path (cacheDir : string) :
  filepath_Join cacheDir "db" ≠ path cacheDir.
Proof.
  destruct (decide (cacheDir = "")) as [->|Hne]; [by vm_compute|].
  unfold path, filepath_Join, dbFileName.
  rewrite !(bool_decide_eq_false_2 (cacheDir = "")) by done.
  change (bool_decide ("db" = "")) with false.
  change (bool_decide ("trivy-java.db" = "")) with false. cbv iota.
  intros H%append_cancel. discriminate.
Qed.

(** X14 — [New] opens the SQLite file that the configuration names,
    with what the file holds, whatever cache directory it is given and
    also when the configuration names a MySQL server as well: the path
    that [New] computes from the cache directory is not the one it
    opens. *)
Theorem New_opens_the_configured_file (cacheDir : string) (conf : DBConfig)
    (w : World) (sc : SqliteDBConfig) (d0 : Database) :
  cacheDir ≠ "" →
  (∀ d, files w !! cacheDir ≠ Some (DatabaseFile d)) →
  sqliteDBConfig conf = Some sc →
  files w !! DBPath sc = Some (DatabaseFile d0) →
  (New cacheDir conf w).1 = inl (mkHandle SqliteBackend (DBPath sc) (serving d0)).
Proof.
  intros Hne Hdir Hsc Hfile. unfold New. rewrite filepath_Dir_path by done.
  unfold os_MkdirAll. rewrite Hsc.
  destruct (files w !! cacheDir) as [[|d]|] eqn:Hc.
  - unfold NewSqlite. by rewrite Hfile.
  - by destruct (Hdir d).
  - unfold NewSqlite. cbn [files].
    rewrite lookup_insert_ne by congruence. by rewrite Hfile.
Qed.






(** X16 — When the SQLite file that [build] is told to open is
    [<cacheDir>/trivy-java.db], the build does start from an empty
    database, whatever the file held: [Init] succeeds, the builder is
    given the connection on the empty tables, its error, if any, is the
    error of [build], and the file holds what the builder committed. *)
Theorem build_from_empty
    (builder_Build : string → Backend → M (option error))
    (cacheDir : string) (mc : option MysqlDBConfig) (w : World) :
  (∀ d, files w !! filepath_Join cacheDir "db" ≠ Some (DatabaseFile d)) →
  let '(err, c) := builder_Build cacheDir SqliteBackend (serving fresh) in
  let '(berr, w') :=
    build builder_Build cacheDir
      (mkDBConfig (Some (mkSqliteDBConfig (path cacheDir))) mc) w in
  berr = Errorf "db build error" <$> err ∧
  files w' !! path cacheDir = Some (DatabaseFile (store c)).
Proof.
  intros Hdir. unfold build, Reset, os_RemoveAll.
  set (w1 := mkWorld _ (servers w)).
  assert (files w1 !! path cacheDir = None) as H1.
  { unfold w1. cbn [files]. apply map_lookup_filter_None_2. right.
    intros x _ [Hp _]. done. }
  assert (∀ d, files w1 !! filepath_Join cacheDir "db" ≠ Some (DatabaseFile d))
    as Hdir1.
  { intros d Hd. unfold w1 in Hd. cbn [files] in Hd.
    apply map_lookup_filter_Some_1_1 in Hd. by apply (Hdir d). }
  clearbody w1. unfold New.
  rewrite filepath_Dir_path by apply Join_db_not_empty.
  unfold os_MkdirAll. cbn [sqliteDBConfig DBPath].
  assert (∀ w2, files w2 !! path cacheDir = None →
            let '(err, c) := builder_Build cacheDir SqliteBackend (serving fresh) in
            let '(berr, w') :=
              match NewSqlite (path cacheDir) w2 with
              | (inr e, w) => (Some (Errorf "db create error" e), w)
              | (inl dbc, w) =>
                  let '(err, dbc) := call DB.Init dbc in
                  let w := written_back dbc w in
                  match err with
                  | Some e => (Some (Errorf "db init error" e), w)
                  | None =>
                      let '(err, dbc) := call (builder_Build cacheDir) dbc in
                      let w := written_back dbc w in
                      match err with
                      | Some e => (Some (Errorf "db build error" e), w)
                      | None => (None, w)
                      end
                  end
              end in
            berr = Errorf "db build error" <$> err ∧
            files w' !! path cacheDir = Some (DatabaseFile (store c))) as Hrun.
  { intros w2 H2. unfold NewSqlite. rewrite H2.
    unfold call at 1. cbn [backend client location DB.Init].
    change (Sqlite.Init (mkConn emptyDatabase None [])) with (None : option error, serving fresh).
    cbn -[written_back]. unfold call. cbn [backend client location].
    destruct (builder_Build cacheDir SqliteBackend (serving fresh)) as [err c].
    destruct err as [e|]; cbn; by rewrite lookup_insert_eq. }
  destruct (files w1 !! filepath_Join cacheDir "db") as [[|d]|] eqn:Hc.
  - by apply Hrun.
  - by destruct (Hdir1 d).
  - apply Hrun. cbn [files]. rewrite lookup_insert_ne; [done|].
    apply Join_db_not_path.
Qed.


(** ** The further properties on the sample data *)

Lemma InsertIndexes_fails_only_with_the_engine_witness :
  [lib_example; lib_clash] ≠ [] ∧
  ((DB.InsertIndexes MysqlBackend [lib_example; lib_clash]
      (mkConn earlier None [false; false; false; false; true])).1 = None ↔
   true ∉ take (length [lib_example; lib_clash] + 3)
               [false; false; false; false; true]).
Proof.
  assert ([lib_example; lib_clash] ≠ []) as H by discriminate.
  split; [exact H|].
  exact (InsertIndexes_fails_only_with_the_engine MysqlBackend
           [lib_example; lib_clash] earlier [false; false; false; false; true] H).
Defined.

Lemma InsertIndexes_only_adds_witness :
  pending (mkConn earlier None [false; false; true]) = None ∧
  extends (store (mkConn earlier None [false; false; true]))
    (store (DB.InsertIndexes SqliteBackend [lib_example; lib_other]
              (mkConn earlier None [false; false; true])).2).
Proof.
  split; [reflexivity|].
  exact (InsertIndexes_only_adds SqliteBackend [lib_example; lib_other]
           (mkConn earlier None [false; false; true]) eq_refl).
Defined.

Lemma InsertIndexes_keeps_constraints_witness :
  pending (serving earlier) = None ∧ consistent (store (serving earlier)) ∧
  consistent (store (DB.InsertIndexes SqliteBackend [lib_example; lib_clash]
                       (serving earlier)).2).
Proof.
  split_and!; [reflexivity | exact consistent_earlier |].
  exact (InsertIndexes_keeps_constraints SqliteBackend [lib_example; lib_clash]
           (serving earlier) eq_refl consistent_earlier).
Defined.

Lemma SelectIndexBySha1_finds_the_row_witness :
  consistent earlier ∧
  DB.SelectIndexBySha1 SqliteBackend (hex.EncodeToString [x00]) (serving earlier) =
    ((mkIndex "org.example" "lib" "0.9" [x00] "war", None), serving earlier).
Proof.
  split; [exact consistent_earlier|].
  apply (SelectIndexBySha1_finds_the_row SqliteBackend earlier
           (mkIndexRow (Some 1%Z) "0.9" [x00] "war")
           (mkArtifactRow 1 "org.example" "lib") consistent_earlier).
  - right. by left.
  - by left.
  - reflexivity.
Defined.



Lemma SelectIndexesByArtifactIDAndFileType_repeats_witness :
  mkIndexRow (Some 1%Z) "1.0" digest_a "jar" ≠
    mkIndexRow (Some 1%Z) "1.0" digest_b "jar" ∧
  ¬ NoDup (DB.SelectIndexesByArtifactIDAndFileType SqliteBackend "lib" "1.0" "jar"
             (serving doubled)).1.1.
Proof.
  assert (mkIndexRow (Some 1%Z) "1.0" digest_a "jar" ≠
          mkIndexRow (Some 1%Z) "1.0" digest_b "jar") as Hne by discriminate.
  split; [exact Hne|].
  apply (SelectIndexesByArtifactIDAndFileType_repeats SqliteBackend doubled
           "lib" "1.0" "jar" (mkArtifactRow 1 "org.example" "lib")
           (mkIndexRow (Some 1%Z) "1.0" digest_a "jar")
           (mkIndexRow (Some 1%Z) "1.0" digest_b "jar")).
  - by left.
  - reflexivity.
  - by left.
  - right. by left.
  - exact Hne.
  - reflexivity.
  - reflexivity.
  - reflexivity.
  - reflexivity.
  - reflexivity.
  - reflexivity.
Defined.


Lemma Sqlite_Init_leaves_a_part_witness :
  SQL.name_taken "artifacts" half = false ∧
  SQL.name_taken "indices" half = true ∧
  (Sqlite.Init (Sqlite.Init (serving half)).2).1 =
    Some (Errorf "unable to create 'artifacts' table"
            (EngineError "table artifacts already exists")).
Proof.
  split_and!; [reflexivity | reflexivity |].
  exact (proj2 (Sqlite_Init_leaves_a_part half eq_refl eq_refl)).
Defined.

Lemma Sqlite_Init_again_witness :
  (Sqlite.Init (serving emptyDatabase)).1 = None ∧
  (Sqlite.Init (Sqlite.Init (serving emptyDatabase)).2).1 ≠ None.
Proof.
  split; [reflexivity|].
  exact (Sqlite_Init_again (serving emptyDatabase) eq_refl).
Defined.

Lemma New_opens_the_configured_file_witness :
  "/cache/db" ≠ "" ∧
  (∀ d, files host !! "/cache/db" ≠ Some (DatabaseFile d)) ∧
  files host !! db_path = Some (DatabaseFile earlier) ∧
  (New "/cache/db"
     (mkDBConfig (Some (mkSqliteDBConfig db_path))
                 (Some (mkMysqlDBConfig connect_url))) host).1 =
    inl (mkHandle SqliteBackend db_path (serving earlier)).
Proof.
  assert ("/cache/db" ≠ "") as H1 by discriminate.
  assert (∀ d, files host !! "/cache/db" ≠ Some (DatabaseFile d)) as H2
    by (intros d; by vm_compute).
  assert (files host !! db_path = Some (DatabaseFile earlier)) as H3
    by (by vm_compute).
  split_and!; [exact H1 | exact H2 | exact H3 |].
  exact (New_opens_the_configured_file "/cache/db"
           (mkDBConfig (Some (mkSqliteDBConfig db_path))
                       (Some (mkMysqlDBConfig connect_url)))
           host (mkSqliteDBConfig db_path) earlier H1 H2 eq_refl H3).
Defined.


Lemma build_from_empty_witness :
  (∀ d, files stale_host !! filepath_Join cache_dir "db" ≠ Some (DatabaseFile d)) ∧
  (build idle_Build cache_dir
     (mkDBConfig (Some (mkSqliteDBConfig (path cache_dir))) None) stale_host).1
    = None ∧
  files (build idle_Build cache_dir
           (mkDBConfig (Some (mkSqliteDBConfig (path cache_dir))) None)
           stale_host).2 !! path cache_dir = Some (DatabaseFile fresh).
Proof.
  assert (∀ d, files stale_host !! filepath_Join cache_dir "db"
                 ≠ Some (DatabaseFile d)) as H
    by (intros d; by vm_compute).
  split; [exact H|].
  pose proof (build_from_empty idle_Build cache_dir None stale_host H) as Hthm.
  change (idle_Build cache_dir SqliteBackend (serving fresh))
    with (None : option error, serving fresh) in Hthm.
  cbn beta iota in Hthm.
  destruct (build idle_Build cache_dir _ stale_host) as [berr w'].
  exact Hthm.
Defined.
